(** * fmctl: the Fabric Manager binding (package fmsdk) and its CLI driver

  A shallow embedding of [cmd/fmctl/main.go] and of the cgo binding
  [pkg/fmsdk]: the native ABI descriptor of the cgo preamble (module [C]),
  the Go wrappers (module [fmsdk]) and the command driver (module [fmctl]).

  Conventions.
  - C [unsigned int] and Go [uint32] values are integers in [Z]; every
    conversion the source performs is written out with its wrap-around.
  - C character buffers are [list ascii]; Go strings are [string].
  - The native library is an oracle whose answers may depend on the calls
    made so far; every native call is recorded in a chronological trace.
  - A Go function either returns, panics, leaves the process through
    [os.Exit], or faults on an unmapped read. *)

From Stdlib Require Import ZArith List String Ascii Bool Lia DecimalString.
From Stdlib Require DecimalZ DecimalPos.
Import ListNotations.
Open Scope Z_scope.

(** ** Machine integers *)

Module CInt.

(** Storage of a value in a 32-bit unsigned object. *)
Definition uint (z : Z) : Z := z mod 2 ^ 32.

(** Storage of a value in a 32-bit two's complement object. *)
Definition int (z : Z) : Z := (z + 2 ^ 31) mod 2 ^ 32 - 2 ^ 31.

(** Conversion to [size_t] (64-bit unsigned). *)
Definition size_t (z : Z) : Z := z mod 2 ^ 64.

End CInt.

(** ** The native ABI descriptor (cgo preamble) *)

Module C.

Definition FM_MAX_FABRIC_PARTITIONS : Z := 64.
Definition FM_MAX_NUM_GPUS : Z := 16.
Definition FM_MAX_NUM_NVLINK_PORTS : Z := 64.
Definition FM_UUID_BUFFER_SIZE : Z := 80.
Definition FM_DEVICE_PCI_BUS_ID_BUFFER_SIZE : Z := 32.
Definition FM_MAX_STR_LENGTH : Z := 256.
Definition FM_MAX_NUM_NVSWITCHES : Z := 12.

(** [typedef enum { ... } fmReturn_t;] *)
Inductive fmReturn_t : Set :=
| FM_ST_SUCCESS
| FM_ST_BADPARAM
| FM_ST_GENERIC_ERROR
| FM_ST_NOT_SUPPORTED
| FM_ST_UNINITIALIZED
| FM_ST_TIMEOUT
| FM_ST_VERSION_MISMATCH
| FM_ST_IN_USE
| FM_ST_NOT_CONFIGURED
| FM_ST_CONNECTION_NOT_VALID
| FM_ST_NVLINK_ERROR.

(** The enumerators' explicit initialisers. *)
Definition fmReturn_value (e : fmReturn_t) : Z :=
  match e with
  | FM_ST_SUCCESS => 0
  | FM_ST_BADPARAM => -1
  | FM_ST_GENERIC_ERROR => -2
  | FM_ST_NOT_SUPPORTED => -3
  | FM_ST_UNINITIALIZED => -4
  | FM_ST_TIMEOUT => -5
  | FM_ST_VERSION_MISMATCH => -6
  | FM_ST_IN_USE => -7
  | FM_ST_NOT_CONFIGURED => -8
  | FM_ST_CONNECTION_NOT_VALID => -9
  | FM_ST_NVLINK_ERROR => -10
  end.

Definition all_fmReturn : list fmReturn_t :=
  [FM_ST_SUCCESS; FM_ST_BADPARAM; FM_ST_GENERIC_ERROR; FM_ST_NOT_SUPPORTED;
   FM_ST_UNINITIALIZED; FM_ST_TIMEOUT; FM_ST_VERSION_MISMATCH; FM_ST_IN_USE;
   FM_ST_NOT_CONFIGURED; FM_ST_CONNECTION_NOT_VALID; FM_ST_NVLINK_ERROR].

(** [typedef struct { ... } fmFabricPartitionGpuInfo_t;] *)
Record fmFabricPartitionGpuInfo_t : Type := {
  physicalId : Z;
  uuid : list ascii;
  pciBusId : list ascii;
  numNvLinksAvailable : Z;
  maxNumNvLinks : Z;
  nvlinkLineRateMBps : Z
}.

(** [typedef struct { ... } fmFabricPartitionInfo_t;] *)
Record fmFabricPartitionInfo_t : Type := {
  partitionId : Z;
  isActive : Z;
  numGpus : Z;
  gpuInfo : list fmFabricPartitionGpuInfo_t
}.

(** [typedef struct { ... } fmFabricPartitionList_v2;] *)
Record fmFabricPartitionList_v2 : Type := {
  list_version : Z;
  numPartitions : Z;
  maxNumPartitions : Z;
  partitionInfo : list fmFabricPartitionInfo_t
}.

(** [typedef struct { ... } fmConnectParams_v1;] *)
Record fmConnectParams_v1 : Type := {
  version : Z;
  addressInfo : list ascii;
  timeoutMs : Z;
  addressIsUnixSocket : Z
}.

(** [sizeof]: every member is an [unsigned int] (4 bytes, alignment 4) or a
    [char] array whose length is a multiple of 4, so no padding occurs. *)
Definition sizeof_uint : Z := 4.

Definition sizeof_fmFabricPartitionGpuInfo_t : Z :=
  sizeof_uint + FM_UUID_BUFFER_SIZE + FM_DEVICE_PCI_BUS_ID_BUFFER_SIZE
  + sizeof_uint + sizeof_uint + sizeof_uint.

Definition sizeof_fmFabricPartitionInfo_t : Z :=
  sizeof_uint + sizeof_uint + sizeof_uint
  + FM_MAX_NUM_GPUS * sizeof_fmFabricPartitionGpuInfo_t.

Definition sizeof_fmFabricPartitionList_v2 : Z :=
  sizeof_uint + sizeof_uint + sizeof_uint
  + FM_MAX_FABRIC_PARTITIONS * sizeof_fmFabricPartitionInfo_t.

Definition sizeof_fmConnectParams_v1 : Z :=
  sizeof_uint + FM_MAX_STR_LENGTH + sizeof_uint + sizeof_uint.

(** [#define MAKE_FM_PARAM_VERSION(typeName,ver)
      (unsigned int)(sizeof(typeName) | ((ver)<<24))]

    [ver] is an [int]: the shift is computed in [int] (two's complement
    result), converted to [size_t] for the [|] with [sizeof], and the cast
    keeps the low 32 bits.  The macro has no failing branch. *)
Definition MAKE_FM_PARAM_VERSION (size ver : Z) : Z :=
  CInt.uint (Z.lor size (CInt.size_t (CInt.int (Z.shiftl ver 24)))).

Definition fmConnectParams_version : Z :=
  MAKE_FM_PARAM_VERSION sizeof_fmConnectParams_v1 1.

Definition fmFabricPartitionList_version : Z :=
  MAKE_FM_PARAM_VERSION sizeof_fmFabricPartitionList_v2 1.

End C.

(** ** The version tag codec as the specification words it *)

Module VersionSpec.

(** Follows the specification's words, for comparison with
    [C.MAKE_FM_PARAM_VERSION]: the tag is [size | (version << 24)], and a
    version above 255 is rejected. *)
Definition encode_version (size ver : Z) : option Z :=
  if ver <=? 255 then Some (Z.lor size (Z.shiftl ver 24)) else None.

(** Modelled from the spec: [decode_version], the inverse direction of the
    version tag codec, which the binding does not implement.  The tag packs
    the version number above bit 24 and the structure size below it. *)
Definition decode_version (tag : Z) : Z * Z :=
  (Z.land tag (Z.ones 24), Z.shiftr tag 24).

End VersionSpec.

(** ** Go control flow and cgo memory access *)

Module Go.

(** How the evaluation of Go code ends: with a value, with a run-time panic,
    with [os.Exit], or with a fault on a read outside mapped memory. *)
Inductive Outcome (A : Type) : Type :=
| Ok (a : A)
| Panic (msg : string)
| Exit (code : Z)
| Fault.

Arguments Ok {A} a.
Arguments Panic {A} msg.
Arguments Exit {A} code.
Arguments Fault {A}.

Definition bind {A B : Type} (o : Outcome A) (k : A -> Outcome B) : Outcome B :=
  match o with
  | Ok a => k a
  | Panic msg => Panic msg
  | Exit code => Exit code
  | Fault => Fault
  end.

Definition is_Ok {A : Type} (o : Outcome A) : bool :=
  match o with Ok _ => true | _ => false end.

(** Decimal rendering of an integer ([%d]). *)
Definition itoa (z : Z) : string := NilZero.string_of_int (Z.to_int z).

(** The index expression [a[i]] on a value of array type [[n]T].  The bound
    is the static length [n]; the list holds the leading elements of the
    array and the elements behind it are zero values. *)
Definition index {T : Type} (n : Z) (zero : T) (a : list T) (i : Z) : Outcome T :=
  if (0 <=? i) && (i <? n)
  then Ok (nth (Z.to_nat i) a zero)
  else Panic ("runtime error: index out of range [" ++ itoa i
              ++ "] with length " ++ itoa n).

(** [for i := start; ...; i++ { result[i] = body(i) }], [count] iterations. *)
Fixpoint for_each {T : Type} (body : Z -> Outcome T) (i : Z) (count : nat)
  : Outcome (list T) :=
  match count with
  | O => Ok []
  | S k =>
      bind (body i) (fun x =>
      bind (for_each body (i + 1) k) (fun xs =>
      Ok (x :: xs)))
  end.

(** [result := make([]T, n); for i := 0; i < n; i++ { result[i] = body(i) }].
    The allocation of the slice is taken to succeed: the end of a process
    that runs out of memory, a fatal error in Go after which no deferred call
    runs, is not among the outcomes of this loop. *)
Definition for_range {T : Type} (n : Z) (body : Z -> Outcome T) : Outcome (list T) :=
  for_each body 0 (Z.to_nat n).

(** The image of a [char] array of [n] elements: the bytes written to it,
    the rest zero. *)
Definition buffer (n : nat) (written : list ascii) : list ascii :=
  firstn n (written ++ repeat zero n).

(** The four bytes of an [unsigned int] object (little-endian). *)
Definition le32 (z : Z) : list ascii :=
  map (fun k => ascii_of_N (Z.to_N ((z / 256 ^ k) mod 256))) [0; 1; 2; 3].

(** [C.CString(s)]: a fresh allocation holding the bytes of [s] and a
    terminating null. *)
Definition CString (s : string) : list ascii :=
  list_ascii_of_string s ++ [zero].

(** [C.GoString(p)], on the bytes found from [p] onwards: the bytes in front
    of the first null.  The scan has no bound of its own; it faults when it
    leaves the mapped bytes. *)
Fixpoint GoString (mem : list ascii) : Outcome string :=
  match mem with
  | [] => Fault
  | c :: rest =>
      if Ascii.eqb c zero then Ok EmptyString
      else bind (GoString rest) (fun s => Ok (String c s))
  end.

(** A pointer [p] recast to a pointer to an array of [n] chars and sliced in
    full, as the operand of a [copy]: the [n] bytes from [p] onwards. *)
Definition read_array (n : nat) (mem : list ascii) : Outcome (list ascii) :=
  if (n <=? List.length mem)%nat then Ok (firstn n mem) else Fault.

(** [copy(dst, src)]: the first [min(len(dst), len(src))] elements. *)
Definition copy {T : Type} (dst src : list T) : list T :=
  firstn (List.length dst) src ++ skipn (List.length src) dst.

(** [strings.HasSuffix]. *)
Definition HasSuffix (s suffix : string) : bool :=
  let n := String.length s in
  let m := String.length suffix in
  (m <=? n)%nat && String.eqb (substring (n - m) m s) suffix.

End Go.

(** ** Package fmsdk: the Go wrappers *)

Module fmsdk.

(** [type FMReturn int] and [type FMHandle unsafe.Pointer]. *)
Definition FMReturn : Type := Z.
Definition FMHandle : Type := Z.
Definition nil : FMHandle := 0.

(** The conversion [FMReturn(C.f(...))]: cgo types the enumeration, which has
    negative enumerators, as a 32-bit signed integer; Go's [int] is wider. *)
Definition FMReturn_of_C (ret : Z) : FMReturn := CInt.int ret.

Definition FM_ST_SUCCESS : FMReturn := C.fmReturn_value C.FM_ST_SUCCESS.
Definition FM_ST_BADPARAM : FMReturn := C.fmReturn_value C.FM_ST_BADPARAM.
Definition FM_ST_GENERIC_ERROR : FMReturn := C.fmReturn_value C.FM_ST_GENERIC_ERROR.
Definition FM_ST_NOT_SUPPORTED : FMReturn := C.fmReturn_value C.FM_ST_NOT_SUPPORTED.
Definition FM_ST_UNINITIALIZED : FMReturn := C.fmReturn_value C.FM_ST_UNINITIALIZED.
Definition FM_ST_TIMEOUT : FMReturn := C.fmReturn_value C.FM_ST_TIMEOUT.
Definition FM_ST_VERSION_MISMATCH : FMReturn := C.fmReturn_value C.FM_ST_VERSION_MISMATCH.
Definition FM_ST_IN_USE : FMReturn := C.fmReturn_value C.FM_ST_IN_USE.
Definition FM_ST_NOT_CONFIGURED : FMReturn := C.fmReturn_value C.FM_ST_NOT_CONFIGURED.
Definition FM_ST_CONNECTION_NOT_VALID : FMReturn :=
  C.fmReturn_value C.FM_ST_CONNECTION_NOT_VALID.
Definition FM_ST_NVLINK_ERROR : FMReturn := C.fmReturn_value C.FM_ST_NVLINK_ERROR.

Record FMConnectParams : Type := {
  Version : Z;
  AddressInfo : string;
  TimeoutMs : Z;
  AddressIsUnixSocket : bool
}.

Record FMFabricPartitionGpuInfo : Type := {
  PhysicalID : Z;
  UUID : string;
  PCIBusID : string;
  NumNvLinksAvailable : Z;
  MaxNumNvLinks : Z;
  NvlinkLineRateMBps : Z
}.

Record FMPartitionInfo : Type := {
  PartitionID : Z;
  IsActive : bool;
  NumGpus : Z;
  GPUInfo : list FMFabricPartitionGpuInfo
}.

(** [func (r FMReturn) String() string] *)
Definition String_ (r : FMReturn) : string :=
  if r =? FM_ST_SUCCESS then "Success"
  else if r =? FM_ST_BADPARAM then "Bad parameter"
  else if r =? FM_ST_GENERIC_ERROR then "Generic error"
  else if r =? FM_ST_NOT_SUPPORTED then "Not supported"
  else if r =? FM_ST_UNINITIALIZED then "Uninitialized"
  else if r =? FM_ST_TIMEOUT then "Timeout"
  else if r =? FM_ST_VERSION_MISMATCH then "Version mismatch"
  else if r =? FM_ST_IN_USE then "In use"
  else if r =? FM_ST_NOT_CONFIGURED then "Not configured"
  else if r =? FM_ST_CONNECTION_NOT_VALID then "Connection not valid"
  else if r =? FM_ST_NVLINK_ERROR then "NVLink error"
  else "Unknown error (" ++ Go.itoa r ++ ")".

(** [func (r FMReturn) Error() string] *)
Definition Error (r : FMReturn) : string := String_ r.

(** *** The native library and the trace of calls *)

(** What a run leaves behind, in order: one event per native call, with the
    arguments passed, and the driver's writes to standard error. *)
Inductive Event : Type :=
| EvLibInit
| EvLibShutdown
| EvConnect (connectParams : C.fmConnectParams_v1)
| EvDisconnect (fmHandle : FMHandle)
| EvGetSupportedFabricPartitions (fmHandle : FMHandle) (version : Z)
| EvActivateFabricPartition (fmHandle : FMHandle) (partitionId : Z)
| EvDeactivateFabricPartition (fmHandle : FMHandle) (partitionId : Z)
| EvUsage
| EvStderr (text : string).

(** The functions declared in the preamble.  Each answer may depend on the
    events so far.  [fmConnect] answers with its return code and with the
    content of [*pFmHandle] after the call (the variable holds [nil] before
    it); [fmGetSupportedFabricPartitions] with its return code and with the
    content of [*pFmFabricPartition] after the call. *)
Record Native : Type := {
  fmLibInit : list Event -> Z;
  fmLibShutdown : list Event -> Z;
  fmConnect : list Event -> C.fmConnectParams_v1 -> Z * FMHandle;
  fmDisconnect : list Event -> FMHandle -> Z;
  fmGetSupportedFabricPartitions :
    list Event -> FMHandle -> C.fmFabricPartitionList_v2
    -> Z * C.fmFabricPartitionList_v2;
  fmActivateFabricPartition : list Event -> FMHandle -> Z -> Z;
  fmDeactivateFabricPartition : list Event -> FMHandle -> Z -> Z
}.

(** The mapped bytes that follow two objects the binding reads beyond: the
    allocation made by [C.CString], and the local copy [gpu] of a GPU
    entry. *)
Record Memory : Type := {
  after_cstring : list ascii;
  after_gpu : list ascii
}.

(** Computations that extend the trace. *)
Definition M (A : Type) : Type := list Event -> Go.Outcome A * list Event.

Definition ret {A : Type} (a : A) : M A := fun tr => (Go.Ok a, tr).

Definition bind {A B : Type} (m : M A) (k : A -> M B) : M B :=
  fun tr =>
    match m tr with
    | (Go.Ok a, tr') => k a tr'
    | (Go.Panic msg, tr') => (Go.Panic msg, tr')
    | (Go.Exit code, tr') => (Go.Exit code, tr')
    | (Go.Fault, tr') => (Go.Fault, tr')
    end.

Definition lift {A : Type} (o : Go.Outcome A) : M A := fun tr => (o, tr).

(** A native call: the answer is computed from the events so far, and the
    call is appended to them. *)
Definition call {A : Type} (answer : list Event -> A) (ev : Event) : M A :=
  fun tr => (Go.Ok (answer tr), tr ++ [ev]).

Declare Scope go_scope.
Delimit Scope go_scope with go.

Notation "x <- m ;; k" := (bind m (fun x => k))
  (at level 61, m at next level, right associativity) : go_scope.
Notation "' pat <- m ;; k" := (bind m (fun x => match x with pat => k end))
  (at level 61, pat pattern, m at next level, right associativity) : go_scope.
Notation "m ;; k" := (bind m (fun _ => k))
  (at level 61, right associativity) : go_scope.

Open Scope go_scope.

Section Binding.

Variable native : Native.
Variable memory : Memory.

(** [func FMLibInit() FMReturn] *)
Definition FMLibInit : M FMReturn :=
  r <- call (fmLibInit native) EvLibInit ;;
  ret (FMReturn_of_C r).

(** [func FMLibShutdown() FMReturn] *)
Definition FMLibShutdown : M FMReturn :=
  r <- call (fmLibShutdown native) EvLibShutdown ;;
  ret (FMReturn_of_C r).

(** The request structure [cParams] that [FMConnect] builds.  The [copy]
    moves 256 bytes from the address of the C string, whatever the length of
    the allocation. *)
Definition connect_request (params : FMConnectParams)
  : Go.Outcome C.fmConnectParams_v1 :=
  let cAddr := Go.CString (AddressInfo params) in
  Go.bind (Go.read_array 256 (cAddr ++ after_cstring memory)) (fun src =>
  Go.Ok {| C.version := C.fmConnectParams_version;
           C.addressInfo := Go.copy (repeat zero 256) src;
           C.timeoutMs := CInt.uint (TimeoutMs params);
           C.addressIsUnixSocket := if AddressIsUnixSocket params then 1 else 0 |}).

(** [func FMConnect(params FMConnectParams) (FMHandle, FMReturn)] *)
Definition FMConnect (params : FMConnectParams) : M (FMHandle * FMReturn) :=
  cParams <- lift (connect_request params) ;;
  '(r, handle) <- call (fun tr => fmConnect native tr cParams) (EvConnect cParams) ;;
  ret (handle, FMReturn_of_C r).

(** [func FMDisconnect(handle FMHandle) FMReturn] *)
Definition FMDisconnect (handle : FMHandle) : M FMReturn :=
  r <- call (fun tr => fmDisconnect native tr handle) (EvDisconnect handle) ;;
  ret (FMReturn_of_C r).

(** The bytes found from [&gpu.uuid[0]] and from [&gpu.pciBusId[0]] onwards:
    the rest of the structure, then what follows it in memory. *)
Definition from_pciBusId (gpu : C.fmFabricPartitionGpuInfo_t) : list ascii :=
  Go.buffer (Z.to_nat C.FM_DEVICE_PCI_BUS_ID_BUFFER_SIZE) (C.pciBusId gpu)
  ++ Go.le32 (C.numNvLinksAvailable gpu)
  ++ Go.le32 (C.maxNumNvLinks gpu)
  ++ Go.le32 (C.nvlinkLineRateMBps gpu)
  ++ after_gpu memory.

Definition from_uuid (gpu : C.fmFabricPartitionGpuInfo_t) : list ascii :=
  Go.buffer (Z.to_nat C.FM_UUID_BUFFER_SIZE) (C.uuid gpu) ++ from_pciBusId gpu.

Definition zero_gpu : C.fmFabricPartitionGpuInfo_t :=
  {| C.physicalId := 0; C.uuid := []; C.pciBusId := [];
     C.numNvLinksAvailable := 0; C.maxNumNvLinks := 0;
     C.nvlinkLineRateMBps := 0 |}.

Definition zero_partition : C.fmFabricPartitionInfo_t :=
  {| C.partitionId := 0; C.isActive := 0; C.numGpus := 0; C.gpuInfo := [] |}.

Definition zero_list : C.fmFabricPartitionList_v2 :=
  {| C.list_version := 0; C.numPartitions := 0; C.maxNumPartitions := 0;
     C.partitionInfo := [] |}.

(** The body of the inner loop of [FMGetSupportedFabricPartitions]. *)
Definition convert_gpu (partition : C.fmFabricPartitionInfo_t) (j : Z)
  : Go.Outcome FMFabricPartitionGpuInfo :=
  Go.bind (Go.index C.FM_MAX_NUM_GPUS zero_gpu (C.gpuInfo partition) j) (fun gpu =>
  Go.bind (Go.GoString (from_uuid gpu)) (fun uuid =>
  Go.bind (Go.GoString (from_pciBusId gpu)) (fun pciBusID =>
  Go.Ok {| PhysicalID := CInt.uint (C.physicalId gpu);
           UUID := uuid;
           PCIBusID := pciBusID;
           NumNvLinksAvailable := CInt.uint (C.numNvLinksAvailable gpu);
           MaxNumNvLinks := CInt.uint (C.maxNumNvLinks gpu);
           NvlinkLineRateMBps := CInt.uint (C.nvlinkLineRateMBps gpu) |}))).

(** The body of the outer loop. *)
Definition convert_partition (partitionList : C.fmFabricPartitionList_v2) (i : Z)
  : Go.Outcome FMPartitionInfo :=
  Go.bind (Go.index C.FM_MAX_FABRIC_PARTITIONS zero_partition
             (C.partitionInfo partitionList) i) (fun partition =>
  Go.bind (Go.for_range (CInt.uint (C.numGpus partition)) (convert_gpu partition))
    (fun gpuInfo =>
  Go.Ok {| PartitionID := CInt.uint (C.partitionId partition);
           IsActive := negb (CInt.uint (C.isActive partition) =? 0);
           NumGpus := CInt.uint (C.numGpus partition);
           GPUInfo := gpuInfo |})).

(** "Convert C structs to Go structs": the two nested loops. *)
Definition convert_list (partitionList : C.fmFabricPartitionList_v2)
  : Go.Outcome (list FMPartitionInfo) :=
  let numPartitions := CInt.uint (C.numPartitions partitionList) in
  Go.for_range numPartitions (convert_partition partitionList).

(** The variable [partitionList] as it is passed to the native call: zero,
    but for its version tag. *)
Definition list_request : C.fmFabricPartitionList_v2 :=
  {| C.list_version := C.fmFabricPartitionList_version;
     C.numPartitions := 0; C.maxNumPartitions := 0; C.partitionInfo := [] |}.

(** [func FMGetSupportedFabricPartitions(handle FMHandle)
      ([]FMPartitionInfo, FMReturn)]; the [nil] slice of the failure branch
    is the empty list. *)
Definition FMGetSupportedFabricPartitions (handle : FMHandle)
  : M (list FMPartitionInfo * FMReturn) :=
  '(r, partitionList) <-
    call (fun tr => fmGetSupportedFabricPartitions native tr handle list_request)
         (EvGetSupportedFabricPartitions handle (C.list_version list_request)) ;;
  let ret_ := FMReturn_of_C r in
  if negb (ret_ =? FM_ST_SUCCESS) then ret ([], ret_)
  else
    result <- lift (convert_list partitionList) ;;
    ret (result, ret_).

(** [func FMActivateFabricPartition(fmHandle FMHandle, partitionID uint32) FMReturn] *)
Definition FMActivateFabricPartition (fmHandle : FMHandle) (partitionID : Z)
  : M FMReturn :=
  r <- call (fun tr => fmActivateFabricPartition native tr fmHandle
                         (CInt.uint partitionID))
            (EvActivateFabricPartition fmHandle (CInt.uint partitionID)) ;;
  ret (FMReturn_of_C r).

(** [func FMDeactivateFabricPartition(fmHandle FMHandle, partitionID uint32) FMReturn] *)
Definition FMDeactivateFabricPartition (fmHandle : FMHandle) (partitionID : Z)
  : M FMReturn :=
  r <- call (fun tr => fmDeactivateFabricPartition native tr fmHandle
                         (CInt.uint partitionID))
            (EvDeactivateFabricPartition fmHandle (CInt.uint partitionID)) ;;
  ret (FMReturn_of_C r).

End Binding.

End fmsdk.

(** ** Command fmctl: the driver *)

(** The driver's writes to standard output (tables, JSON, progress lines)
    are presentation and leave no event; [json.MarshalIndent] does not fail
    on the values the driver passes to it. *)

Module fmctl.

Import fmsdk.
Open Scope go_scope.

(** The command line after [flag.Parse]: the four flags and the remaining
    arguments. *)
Record Flags : Type := {
  address : string;
  timeout : Z;
  jsonOutput : bool;
  verbose : bool;
  args : list string
}.

Definition nl : string := String (ascii_of_nat 10) EmptyString.

(** [os.Exit(code)]: the process ends at once; deferred calls do not run. *)
Definition os_Exit {A : Type} (code : Z) : M A := fun tr => (Go.Exit code, tr).

(** [fmt.Fprintf(os.Stderr, ...)] with the formatted text. *)
Definition stderr (text : string) : M unit :=
  fun tr => (Go.Ok tt, tr ++ [EvStderr text]).

(** [flag.Usage()]. *)
Definition usage : M unit := fun tr => (Go.Ok tt, tr ++ [EvUsage]).

(** [defer deferred; body]: the deferred call runs when the body returns and
    when it panics, in which case the panic goes on afterwards. *)
Definition defer_ {A B : Type} (deferred : M B) (body : M A) : M A :=
  fun tr =>
    match body tr with
    | (Go.Ok a, tr') =>
        match deferred tr' with
        | (Go.Ok _, tr'') => (Go.Ok a, tr'')
        | (Go.Panic msg, tr'') => (Go.Panic msg, tr'')
        | (Go.Exit code, tr'') => (Go.Exit code, tr'')
        | (Go.Fault, tr'') => (Go.Fault, tr'')
        end
    | (Go.Panic msg, tr') =>
        match deferred tr' with
        | (Go.Ok _, tr'') => (Go.Panic msg, tr'')
        | (Go.Panic msg', tr'') => (Go.Panic msg', tr'')
        | (Go.Exit code, tr'') => (Go.Exit code, tr'')
        | (Go.Fault, tr'') => (Go.Fault, tr'')
        end
    | (Go.Exit code, tr') => (Go.Exit code, tr')
    | (Go.Fault, tr') => (Go.Fault, tr')
    end.

(** *** [strconv.ParseUint(s, 10, 32)] *)

Inductive NumError : Type := ErrSyntax | ErrRange.

Definition maxUint64 : Z := 2 ^ 64 - 1.
Definition cutoff : Z := maxUint64 / 10 + 1.
Definition maxVal : Z := 2 ^ 32 - 1.

Definition digit (c : ascii) : option Z :=
  let n := Z.of_nat (nat_of_ascii c) in
  if (48 <=? n) && (n <=? 57) then Some (n - 48) else None.

Fixpoint parse_digits (cs : list ascii) (n : Z) : NumError + Z :=
  match cs with
  | [] => inr n
  | c :: rest =>
      match digit c with
      | None => inl ErrSyntax
      | Some d =>
          if n >=? cutoff then inl ErrRange
          else
            let n' := CInt.size_t (n * 10) in
            let n1 := CInt.size_t (n' + d) in
            if (n1 <? n') || (n1 >? maxVal) then inl ErrRange
            else parse_digits rest n1
      end
  end.

Definition ParseUint (s : string) : NumError + Z :=
  match s with
  | EmptyString => inl ErrSyntax
  | _ => parse_digits (list_ascii_of_string s) 0
  end.

Section Driver.

Variable native : Native.
Variable memory : Memory.
Variable flags : Flags.

(** [strconv.Quote], used by the text of a [*strconv.NumError]. *)
Variable Quote : string -> string.

Definition NumError_Error (s : string) (e : NumError) : string :=
  "strconv.ParseUint: parsing " ++ Quote s ++ ": "
  ++ match e with
     | ErrSyntax => "invalid syntax"
     | ErrRange => "value out of range"
     end.

(** [func connectToFM() (fmsdk.FMHandle, fmsdk.FMReturn)] *)
Definition connectToFM : M (FMHandle * FMReturn) :=
  let params :=
    {| Version := 1;
       AddressInfo := address flags;
       TimeoutMs := CInt.uint (timeout flags);
       AddressIsUnixSocket := Go.HasSuffix (address flags) ".sock" |} in
  FMConnect native memory params.

(** [func cmdList(handle fmsdk.FMHandle)]; the rendering of the partitions
    on standard output is not part of the trace. *)
Definition cmdList (handle : FMHandle) : M unit :=
  '(partitions, r) <- FMGetSupportedFabricPartitions native memory handle ;;
  if negb (r =? FM_ST_SUCCESS) then
    stderr ("Error: Failed to get fabric partitions: " ++ Error r ++ nl) ;;
    os_Exit 1
  else ret tt.

(** The search loop of [cmdStatus]. *)
Definition find_partition (partitions : list FMPartitionInfo) (partitionID : Z)
  : option FMPartitionInfo :=
  find (fun p => PartitionID p =? partitionID) partitions.

(** [func cmdStatus(handle fmsdk.FMHandle, partitionID uint32)] *)
Definition cmdStatus (handle : FMHandle) (partitionID : Z) : M unit :=
  '(partitions, r) <- FMGetSupportedFabricPartitions native memory handle ;;
  if negb (r =? FM_ST_SUCCESS) then
    stderr ("Error: Failed to get fabric partitions: " ++ Error r ++ nl) ;;
    os_Exit 1
  else
    match find_partition partitions partitionID with
    | None =>
        stderr ("Error: Partition " ++ Go.itoa partitionID ++ " not found" ++ nl) ;;
        os_Exit 1
    | Some _ => ret tt
    end.

(** [func cmdActivate(handle fmsdk.FMHandle, partitionID uint32)] *)
Definition cmdActivate (handle : FMHandle) (partitionID : Z) : M unit :=
  r <- FMActivateFabricPartition native handle partitionID ;;
  if negb (r =? FM_ST_SUCCESS) then
    stderr ("Error: Failed to activate partition " ++ Go.itoa partitionID
            ++ ": " ++ Error r ++ nl) ;;
    os_Exit 1
  else ret tt.

(** [func cmdDeactivate(handle fmsdk.FMHandle, partitionID uint32)] *)
Definition cmdDeactivate (handle : FMHandle) (partitionID : Z) : M unit :=
  r <- FMDeactivateFabricPartition native handle partitionID ;;
  if negb (r =? FM_ST_SUCCESS) then
    stderr ("Error: Failed to deactivate partition " ++ Go.itoa partitionID
            ++ ": " ++ Error r ++ nl) ;;
    os_Exit 1
  else ret tt.

(** [func cmdInfo()]: standard output only. *)
Definition cmdInfo : M unit := ret tt.

(** The three cases of [main]'s switch that take a partition-id. *)
Definition with_partition_id (name : string) (cmd : Z -> M unit) : M unit :=
  if (List.length (args flags) <? 2)%nat then
    stderr ("Error: " ++ name ++ " command requires partition-id argument" ++ nl) ;;
    os_Exit 1
  else
    let arg := nth 1 (args flags) EmptyString in
    match ParseUint arg with
    | inl err =>
        stderr ("Error: invalid partition-id: " ++ NumError_Error arg err ++ nl) ;;
        os_Exit 1
    | inr partitionID => cmd (CInt.uint partitionID)
    end.

(** "Execute command": the switch of [main]. *)
Definition execute (command : string) (handle : FMHandle) : M unit :=
  if String.eqb command "list" then cmdList handle
  else if String.eqb command "status" then
    with_partition_id "status" (cmdStatus handle)
  else if String.eqb command "activate" then
    with_partition_id "activate" (cmdActivate handle)
  else if String.eqb command "deactivate" then
    with_partition_id "deactivate" (cmdDeactivate handle)
  else
    stderr ("Error: unknown command: " ++ command ++ nl) ;;
    usage ;;
    os_Exit 1.

(** The part of [main] that owns the handle: from
    [defer fmsdk.FMDisconnect(handle)] to the end of the switch. *)
Definition session (command : string) (handle : FMHandle) : M unit :=
  defer_ (FMDisconnect native handle) (execute command handle).

(** "Connect to FM daemon", and what follows it in [main]. *)
Definition connected (command : string) : M unit :=
  '(handle, r) <- connectToFM ;;
  if negb (r =? FM_ST_SUCCESS) then
    stderr ("Error: Failed to connect to Fabric Manager: " ++ Error r ++ nl) ;;
    os_Exit 1
  else session command handle.

(** [func main()], from the return of [flag.Parse()] on; [Process.run] has the
    parse in front of it. *)
Definition main : M unit :=
  if (List.length (args flags) <? 1)%nat then usage ;; os_Exit 1
  else
    let command := nth 0 (args flags) EmptyString in
    if String.eqb command "info" then cmdInfo
    else
      r <- FMLibInit native ;;
      (if negb (r =? FM_ST_SUCCESS) && verbose flags then
         stderr ("Warning: FMLibInit returned " ++ Error r
                 ++ " (library may not be available)" ++ nl)
       else ret tt) ;;
      defer_ (FMLibShutdown native) (connected command).

End Driver.

(** The number of [fmDisconnect] calls on [handle] in a trace. *)
Definition disconnects (handle : FMHandle) (tr : list Event) : nat :=
  List.length (filter (fun ev =>
                         match ev with
                         | EvDisconnect h => h =? handle
                         | _ => false
                         end) tr).

Definition is_disconnect (ev : Event) : bool :=
  match ev with
  | EvDisconnect _ => true
  | _ => false
  end.

(** The events that are not a disconnect. *)
Definition quiet (ev : Event) : Prop := is_disconnect ev = false.

(** A computation that extends the trace, and only by events that satisfy
    [P]. *)
Definition appends {A : Type} (P : Event -> Prop) (m : M A) : Prop :=
  forall tr, exists evs, snd (m tr) = tr ++ evs /\ Forall P evs.

(** The outcomes after which deferred calls run. *)
Definition unwinds {A : Type} (o : Go.Outcome A) : bool :=
  match o with
  | Go.Ok _ | Go.Panic _ => true
  | Go.Exit _ | Go.Fault => false
  end.

End fmctl.

(** ** The whole of [main], with the parse of the flags *)

Module Process.

Import fmsdk.
Open Scope go_scope.

(** How [flag.Parse()] ends on the process's arguments: with the flags and
    the remaining arguments; at a request for help ([-h], [-help]); or at an
    argument that is no valid flag, with the text of the error.  The command
    line's flag set exits on error. *)
Inductive FlagParse : Type :=
| Parsed (flags : fmctl.Flags)
| Help
| BadFlag (text : string).

Section Run.

Variable native : Native.
Variable memory : Memory.
Variable Quote : string -> string.

(** [func main()] from its first line: [flag.Usage] is set, [flag.Parse()]
    prints the usage and leaves with status 0 at a request for help, prints
    the error and the usage and leaves with status 2 at a bad flag, and else
    returns to the rest of [main]. *)
Definition run (parse : FlagParse) : M unit :=
  match parse with
  | Parsed flags => fmctl.main native memory flags Quote
  | Help => fmctl.usage ;; fmctl.os_Exit 0
  | BadFlag text =>
      fmctl.stderr (text ++ fmctl.nl) ;; fmctl.usage ;; fmctl.os_Exit 2
  end.

End Run.

End Process.

(** ** The bounded string decode as the specification words it *)

Module StringSpec.

(** Follows the specification's words, for comparison with [Go.GoString]:
    scan the buffer for the terminating null, or to its end when there is
    none, and produce the string of that length. *)
Fixpoint decode_bounded_string (buf : list ascii) : string :=
  match buf with
  | [] => EmptyString
  | c :: rest =>
      if Ascii.eqb c zero then EmptyString
      else String c (decode_bounded_string rest)
  end.

End StringSpec.

(** ** Elements of the fixed-capacity arrays *)

(** The element [partitionList.partitionInfo[i]]. *)
Definition partition_at (partitionList : C.fmFabricPartitionList_v2) (i : Z)
  : C.fmFabricPartitionInfo_t :=
  nth (Z.to_nat i) (C.partitionInfo partitionList) fmsdk.zero_partition.

(** The element [partition.gpuInfo[j]]. *)
Definition gpu_at (partition : C.fmFabricPartitionInfo_t) (j : Z)
  : C.fmFabricPartitionGpuInfo_t :=
  nth (Z.to_nat j) (C.gpuInfo partition) fmsdk.zero_gpu.

(** ** Standard output of the [list] command *)

Module Output.

Import fmsdk.

Definition tab : string := String (ascii_of_nat 9) EmptyString.

(** [strings.Join(elems, sep)]. *)
Fixpoint Join (elems : list string) (sep : string) : string :=
  match elems with
  | [] => EmptyString
  | [e] => e
  | e :: rest => e ++ sep ++ Join rest sep
  end.

(** The inner loop of [cmdList], "Collect GPU physical IDs": the slice
    [gpuIDs] and the accumulator [totalNvLinks], a [uint32]. *)
Definition gpuIDs (p : FMPartitionInfo) : list string :=
  map (fun gpu => Go.itoa (PhysicalID gpu)) (GPUInfo p).

Definition totalNvLinks (p : FMPartitionInfo) : Z :=
  fold_left (fun total gpu => CInt.uint (total + NumNvLinksAvailable gpu))
    (GPUInfo p) 0.

(** The line that [cmdList] formats for one partition, as it is handed to
    the tab writer. *)
Definition list_row (p : FMPartitionInfo) : string :=
  let status := (if IsActive p then "Active" else "Inactive")%string in
  Go.itoa (PartitionID p) ++ tab ++ status ++ tab ++ Go.itoa (NumGpus p) ++ tab
  ++ Go.itoa (totalNvLinks p) ++ tab ++ Join (gpuIDs p) "," ++ fmctl.nl.

End Output.

(** ** Reading traces and arguments *)

Module Events.

Import fmsdk.

(** The handle that an event carries. *)
Definition handle_of (ev : Event) : option FMHandle :=
  match ev with
  | EvDisconnect h => Some h
  | EvGetSupportedFabricPartitions h _ => Some h
  | EvActivateFabricPartition h _ => Some h
  | EvDeactivateFabricPartition h _ => Some h
  | _ => None
  end.

(** The events that [main]'s switch may leave for a connection with handle
    [h]: the operations on that handle, and the writes to standard error. *)
Definition operation_on (h : FMHandle) (ev : Event) : Prop :=
  match ev with
  | EvGetSupportedFabricPartitions h' _ => h' = h
  | EvActivateFabricPartition h' _ => h' = h
  | EvDeactivateFabricPartition h' _ => h' = h
  | EvUsage => True
  | EvStderr _ => True
  | EvLibInit => False
  | EvLibShutdown => False
  | EvConnect _ => False
  | EvDisconnect _ => False
  end.

(** The events that are calls of the native library. *)
Definition is_native (ev : Event) : bool :=
  match ev with
  | EvUsage | EvStderr _ => false
  | _ => true
  end.

(** An outcome that is not an [os.Exit]. *)
Definition no_exit {A : Type} (o : Go.Outcome A) : Prop :=
  forall code, o <> Go.Exit code.

(** A computation whose every [os.Exit] has the status [code]. *)
Definition exits_with {A : Type} (code : Z) (m : M A) : Prop :=
  forall tr c, fst (m tr) = Go.Exit c -> c = code.

(** The decimal digits and the number that a string of digits denotes. *)
Definition is_digit (c : ascii) : Prop :=
  (48 <= nat_of_ascii c <= 57)%nat.

Definition decimal_step (acc : Z) (c : ascii) : Z :=
  10 * acc + (Z.of_nat (nat_of_ascii c) - 48).

Definition decimal_value (s : string) : Z :=
  fold_left decimal_step (list_ascii_of_string s) 0.

Section Runs.

Variable native : Native.
Variable flags : fmctl.Flags.

(** What [connected] adds to a trace [tr], by its outcome [o]: nothing when
    the copy of the address faults; the connect and its report when the
    connect is refused; else the connect, the operations on the handle and,
    when the outcome lets deferred calls run, the disconnect. *)
Inductive connected_run (tr : list Event) (o : Go.Outcome unit)
  : list Event -> Prop :=
| run_fault :
    o = Go.Fault -> connected_run tr o []
| run_refused cParams text :
    FMReturn_of_C (fst (fmConnect native tr cParams)) <> FM_ST_SUCCESS ->
    o = Go.Exit 1 ->
    connected_run tr o [EvConnect cParams; EvStderr text]
| run_session cParams evs :
    FMReturn_of_C (fst (fmConnect native tr cParams)) = FM_ST_SUCCESS ->
    Forall (operation_on (snd (fmConnect native tr cParams))) evs ->
    connected_run tr o
      (EvConnect cParams :: evs
       ++ (if fmctl.unwinds o
           then [EvDisconnect (snd (fmConnect native tr cParams))] else [])).

(** What a run of [main] leaves in the trace, by its outcome. *)
Inductive main_run (o : Go.Outcome unit) : list Event -> Prop :=
| run_usage :
    fmctl.args flags = [] -> o = Go.Exit 1 -> main_run o [EvUsage]
| run_info :
    nth 0 (fmctl.args flags) EmptyString = "info"%string -> o = Go.Ok tt ->
    main_run o []
| run_command init evs :
    fmctl.args flags <> [] ->
    nth 0 (fmctl.args flags) EmptyString <> "info"%string ->
    (init = [EvLibInit] \/ exists text, init = [EvLibInit; EvStderr text]) ->
    connected_run init o evs ->
    main_run o
      (init ++ evs ++ (if fmctl.unwinds o then [EvLibShutdown] else [])).

End Runs.

End Events.

(** ** Sample daemons and inputs *)

Module Scenario.

Import fmsdk.

(** A daemon that gives the same answers whatever came before. *)
Definition daemon (connect : Z * FMHandle)
  (partitions : Z * C.fmFabricPartitionList_v2) (change : Z) : Native :=
  {| fmLibInit := fun _ => 0;
     fmLibShutdown := fun _ => 0;
     fmConnect := fun _ _ => connect;
     fmDisconnect := fun _ _ => 0;
     fmGetSupportedFabricPartitions := fun _ _ _ => partitions;
     fmActivateFabricPartition := fun _ _ _ => change;
     fmDeactivateFabricPartition := fun _ _ _ => change |}.

Definition memory : Memory :=
  {| after_cstring := repeat zero 256; after_gpu := [zero] |}.

(** No mapped byte behind either object. *)
Definition tight_memory : Memory :=
  {| after_cstring := []; after_gpu := [] |}.

Definition chars (c : ascii) (n : nat) : list ascii := repeat c n.

(** An address of 256 bytes: 257 with the terminating null. *)
Definition long_address : string := string_of_list_ascii (chars "a" 256).

Definition default_address : string :=
  "/var/run/nvidia-fabricmanager/nv-fabricmanager.sock".

Definition params (addr : string) (ver : Z) : FMConnectParams :=
  {| Version := ver; AddressInfo := addr; TimeoutMs := 5000;
     AddressIsUnixSocket := Go.HasSuffix addr ".sock" |}.

Definition empty_list (n : Z) : C.fmFabricPartitionList_v2 :=
  {| C.list_version := C.fmFabricPartitionList_version;
     C.numPartitions := n;
     C.maxNumPartitions := C.FM_MAX_FABRIC_PARTITIONS;
     C.partitionInfo := [] |}.

Definition gpu (id : Z) (uuid pciBusId : list ascii) : C.fmFabricPartitionGpuInfo_t :=
  {| C.physicalId := id; C.uuid := uuid; C.pciBusId := pciBusId;
     C.numNvLinksAvailable := 18; C.maxNumNvLinks := 18;
     C.nvlinkLineRateMBps := 25000 |}.

Definition partition (id active n : Z) (gpus : list C.fmFabricPartitionGpuInfo_t)
  : C.fmFabricPartitionInfo_t :=
  {| C.partitionId := id; C.isActive := active; C.numGpus := n;
     C.gpuInfo := gpus |}.

(** Two partitions: 0, active, with one GPU whose identifier buffers are all
    zero; and 1, inactive, with none. *)
Definition two_partitions : C.fmFabricPartitionList_v2 :=
  {| C.list_version := C.fmFabricPartitionList_version;
     C.numPartitions := 2;
     C.maxNumPartitions := C.FM_MAX_FABRIC_PARTITIONS;
     C.partitionInfo := [partition 0 1 1 [gpu 1 [] []]; partition 1 0 0 []] |}.

(** The request that [FMConnect] builds for the default address. *)
Definition default_request : C.fmConnectParams_v1 :=
  {| C.version := C.fmConnectParams_version;
     C.addressInfo := Go.buffer 256 (list_ascii_of_string default_address);
     C.timeoutMs := 5000;
     C.addressIsUnixSocket := 1 |}.

Definition flags (command : list string) : fmctl.Flags :=
  {| fmctl.address := default_address; fmctl.timeout := 5000;
     fmctl.jsonOutput := false; fmctl.verbose := false;
     fmctl.args := command |}.

End Scenario.

(** * Properties *)

(** ** Machine integers *)

Lemma uint_range z : 0 <= CInt.uint z < 2 ^ 32.
Proof. unfold CInt.uint. apply Z.mod_pos_bound. lia. Qed.

Lemma uint_small z : 0 <= z < 2 ^ 32 -> CInt.uint z = z.
Proof. intros H. unfold CInt.uint. apply Z.mod_small. exact H. Qed.

Lemma int_small z : - 2 ^ 31 <= z < 2 ^ 31 -> CInt.int z = z.
Proof. intros H. unfold CInt.int. rewrite Z.mod_small; lia. Qed.

Lemma uint_land z : CInt.uint z = Z.land z (Z.ones 32).
Proof. unfold CInt.uint. rewrite Z.land_ones; lia. Qed.

(** The low 32 bits survive the detour through [int] and [size_t]. *)
Lemma uint_size_t_int z : CInt.uint (CInt.size_t (CInt.int z)) = CInt.uint z.
Proof.
  unfold CInt.uint, CInt.size_t, CInt.int.
  rewrite Z.mod_mod_divide by (exists (2 ^ 32); reflexivity).
  rewrite Zminus_mod, Zmod_mod, <- Zminus_mod.
  f_equal. lia.
Qed.

(** ** The version tag codec *)

(** The macro keeps the low 32 bits of each operand of the [|]. *)
Lemma MAKE_FM_PARAM_VERSION_low_bits size ver :
  C.MAKE_FM_PARAM_VERSION size ver
  = Z.lor (CInt.uint size) (CInt.uint (Z.shiftl ver 24)).
Proof.
  unfold C.MAKE_FM_PARAM_VERSION.
  rewrite uint_land, Z.land_lor_distr_l, <- !uint_land.
  rewrite uint_size_t_int. reflexivity.
Qed.

Lemma shiftl_24_small ver : 0 <= ver <= 255 -> CInt.uint (Z.shiftl ver 24) = Z.shiftl ver 24.
Proof.
  intros H. apply uint_small. rewrite Z.shiftl_mul_pow2 by lia.
  change (2 ^ 32) with (256 * 2 ^ 24). nia.
Qed.

Lemma shiftl_24_wraps ver :
  CInt.uint (Z.shiftl ver 24) = Z.shiftl (ver mod 256) 24.
Proof.
  unfold CInt.uint. rewrite !Z.shiftl_mul_pow2 by lia.
  change (2 ^ 32) with (256 * 2 ^ 24).
  apply Z.mul_mod_distr_r; lia.
Qed.

Lemma MAKE_FM_PARAM_VERSION_exact size ver :
  0 <= size < 2 ^ 32 ->
  0 <= ver <= 255 ->
  C.MAKE_FM_PARAM_VERSION size ver = Z.lor size (Z.shiftl ver 24).
Proof.
  intros Hsize Hver. rewrite MAKE_FM_PARAM_VERSION_low_bits.
  rewrite uint_small by exact Hsize.
  rewrite shiftl_24_small by exact Hver. reflexivity.
Qed.

(** Every request that [FMConnect] builds carries the macro-derived tag. *)
Lemma connect_request_version memory params cParams :
  fmsdk.connect_request memory params = Go.Ok cParams ->
  C.version cParams = C.fmConnectParams_version.
Proof.
  unfold fmsdk.connect_request. intros H.
  destruct (Go.read_array _ _) as [src | | |]; simpl in H; try discriminate.
  injection H as <-. reflexivity.
Qed.

(** C4 (as amended).  For every structure size below [2^32] and every
    version number the macro yields the low 32 bits of [size | (ver << 24)]:
    for a version number [ver <= 255] that is [size | (ver << 24)] itself.
    It rejects nothing: for a version number above 255 it yields a tag too,
    the one of [ver mod 256].  The version field of every connect request is
    [sizeof(fmConnectParams_v1) | (1 << 24)]. *)
Theorem MAKE_FM_PARAM_VERSION_tag (size ver : Z) :
  0 <= size < 2 ^ 32 ->
  0 <= ver ->
  C.MAKE_FM_PARAM_VERSION size ver = CInt.uint (Z.lor size (Z.shiftl ver 24))
  /\ (ver <= 255 ->
      C.MAKE_FM_PARAM_VERSION size ver = Z.lor size (Z.shiftl ver 24))
  /\ C.MAKE_FM_PARAM_VERSION size ver = Z.lor size (Z.shiftl (ver mod 256) 24)
  /\ (forall memory params cParams,
         fmsdk.connect_request memory params = Go.Ok cParams ->
         C.version cParams
         = Z.lor C.sizeof_fmConnectParams_v1 (Z.shiftl 1 24)).
Proof.
  intros Hsize Hver. repeat split.
  - rewrite MAKE_FM_PARAM_VERSION_low_bits.
    rewrite (uint_land (Z.lor _ _)), Z.land_lor_distr_l, <- !uint_land.
    reflexivity.
  - intros Hle. apply MAKE_FM_PARAM_VERSION_exact; lia.
  - rewrite MAKE_FM_PARAM_VERSION_low_bits.
    rewrite uint_small by exact Hsize.
    rewrite shiftl_24_wraps. reflexivity.
  - intros memory params cParams H.
    rewrite (connect_request_version _ _ _ H). reflexivity.
Qed.

Lemma MAKE_FM_PARAM_VERSION_tag_witness :
  C.MAKE_FM_PARAM_VERSION 268 1 = Z.lor 268 (Z.shiftl 1 24)
  /\ C.MAKE_FM_PARAM_VERSION 268 1 = 16777484.
Proof.
  split.
  - apply (MAKE_FM_PARAM_VERSION_tag 268 1); lia.
  - reflexivity.
Defined.

(** C4, as stated, fails at version 256: the codec of the specification
    rejects it, the macro yields the tag of version 0. *)
Lemma MAKE_FM_PARAM_VERSION_accepts_256 :
  VersionSpec.encode_version 268 256 = None
  /\ C.MAKE_FM_PARAM_VERSION 268 256 = 268
  /\ C.MAKE_FM_PARAM_VERSION 268 256 = C.MAKE_FM_PARAM_VERSION 268 0.
Proof. repeat split. Qed.

(** C7 (as amended).  For every structure size below [2^24] and every
    version number from 0 to 255, decoding the tag gives back the pair. *)
Theorem decode_version_MAKE_FM_PARAM_VERSION (size ver : Z) :
  0 <= size < 2 ^ 24 ->
  0 <= ver <= 255 ->
  VersionSpec.decode_version (C.MAKE_FM_PARAM_VERSION size ver) = (size, ver).
Proof.
  intros Hsize Hver.
  rewrite MAKE_FM_PARAM_VERSION_exact by lia. unfold VersionSpec.decode_version. f_equal.
  - rewrite Z.land_lor_distr_l, !Z.land_ones by lia.
    rewrite Z.shiftl_mul_pow2 by lia.
    rewrite Z.mod_mul by lia. rewrite Z.mod_small by lia.
    apply Z.lor_0_r.
  - rewrite Z.shiftr_lor, Z.shiftr_shiftl_l by lia.
    rewrite Z.shiftr_div_pow2 by lia.
    rewrite Z.div_small by lia. simpl. apply Z.shiftl_0_r.
Qed.

Lemma decode_version_MAKE_FM_PARAM_VERSION_witness :
  VersionSpec.decode_version (C.MAKE_FM_PARAM_VERSION 268 1) = (268, 1).
Proof. apply decode_version_MAKE_FM_PARAM_VERSION; lia. Defined.

(** C7, as stated, fails for a size of [2^24]: its tag with version 0 is the
    tag of size 0 with version 1, and decodes to that pair. *)
Lemma decode_version_wide_size :
  C.MAKE_FM_PARAM_VERSION 16777216 0 = C.MAKE_FM_PARAM_VERSION 0 1
  /\ VersionSpec.decode_version (C.MAKE_FM_PARAM_VERSION 16777216 0) = (0, 1)
  /\ VersionSpec.decode_version (C.MAKE_FM_PARAM_VERSION 16777216 0)
     <> (16777216, 0).
Proof. repeat split. discriminate. Qed.

(** ** Return codes *)

(** C9.  The return codes are success = 0 and ten negative error codes, -1
    to -10 in the order of the enumeration; the Go constants carry the same
    values, distinct from one another, and the conversion from the native
    return type keeps them. *)
Theorem return_code_wire_values :
  [fmsdk.FM_ST_SUCCESS; fmsdk.FM_ST_BADPARAM; fmsdk.FM_ST_GENERIC_ERROR;
   fmsdk.FM_ST_NOT_SUPPORTED; fmsdk.FM_ST_UNINITIALIZED; fmsdk.FM_ST_TIMEOUT;
   fmsdk.FM_ST_VERSION_MISMATCH; fmsdk.FM_ST_IN_USE;
   fmsdk.FM_ST_NOT_CONFIGURED; fmsdk.FM_ST_CONNECTION_NOT_VALID;
   fmsdk.FM_ST_NVLINK_ERROR]
  = [0; -1; -2; -3; -4; -5; -6; -7; -8; -9; -10]
  /\ map C.fmReturn_value C.all_fmReturn
     = [0; -1; -2; -3; -4; -5; -6; -7; -8; -9; -10]
  /\ (forall e, In e C.all_fmReturn)
  /\ (forall e, e <> C.FM_ST_SUCCESS -> C.fmReturn_value e < 0)
  /\ (forall e e', C.fmReturn_value e = C.fmReturn_value e' -> e = e')
  /\ (forall e, fmsdk.FMReturn_of_C (C.fmReturn_value e) = C.fmReturn_value e).
Proof.
  repeat split.
  - intros e. destruct e; simpl; tauto.
  - intros e He. destruct e; simpl; try lia. contradiction.
  - intros e e' H. destruct e, e'; simpl in H; try discriminate; reflexivity.
  - intros e. destruct e; reflexivity.
Qed.

(** ** Connect *)

Section Connect.

Import fmsdk.

Variable native : Native.
Variable memory : Memory.

(** [FMConnect] performs the native call that its request allows and hands
    back the call's answer. *)
Lemma FMConnect_call params cParams tr :
  connect_request memory params = Go.Ok cParams ->
  FMConnect native memory params tr
  = (Go.Ok (snd (fmConnect native tr cParams),
            FMReturn_of_C (fst (fmConnect native tr cParams))),
     tr ++ [EvConnect cParams]).
Proof.
  intros H. unfold FMConnect, bind, lift, call, ret. rewrite H.
  destruct (fmConnect native tr cParams) as [r handle]. reflexivity.
Qed.

Lemma FMConnect_inv params tr handle r tr' :
  FMConnect native memory params tr = (Go.Ok (handle, r), tr') ->
  exists cParams,
    connect_request memory params = Go.Ok cParams
    /\ handle = snd (fmConnect native tr cParams)
    /\ r = FMReturn_of_C (fst (fmConnect native tr cParams))
    /\ tr' = tr ++ [EvConnect cParams].
Proof.
  intros H. destruct (connect_request memory params) as [cParams | | |] eqn:E.
  - rewrite (FMConnect_call _ _ _ E) in H. injection H as <- <- <-.
    exists cParams. auto.
  - unfold FMConnect, bind, lift in H. rewrite E in H. discriminate.
  - unfold FMConnect, bind, lift in H. rewrite E in H. discriminate.
  - unfold FMConnect, bind, lift in H. rewrite E in H. discriminate.
Qed.

(** An address whose encoding fills the buffer is copied without a look at
    the bytes behind the allocation. *)
Lemma connect_request_long params :
  (256 < List.length (Go.CString (AddressInfo params)))%nat ->
  exists cParams, connect_request memory params = Go.Ok cParams.
Proof.
  intros H. unfold connect_request, Go.read_array.
  rewrite length_app.
  destruct (256 <=? _)%nat eqn:E.
  - simpl. eexists. reflexivity.
  - apply Nat.leb_gt in E. lia.
Qed.

End Connect.

(** C1 (as amended).  For every connect request whose address, with its
    terminating null, is longer than the 256 bytes of the buffer, [FMConnect]
    does not fail locally: it issues the native connect call, once, and
    returns the handle and the return code of that call. *)
Theorem FMConnect_long_address
  (native : fmsdk.Native) (memory : fmsdk.Memory)
  (params : fmsdk.FMConnectParams) (tr : list fmsdk.Event) :
  (256 < List.length (Go.CString (fmsdk.AddressInfo params)))%nat ->
  exists cParams,
    fmsdk.FMConnect native memory params tr
    = (Go.Ok (snd (fmsdk.fmConnect native tr cParams),
              fmsdk.FMReturn_of_C (fst (fmsdk.fmConnect native tr cParams))),
       tr ++ [fmsdk.EvConnect cParams]).
Proof.
  intros H.
  destruct (connect_request_long memory params H) as [cParams E].
  exists cParams. apply FMConnect_call. exact E.
Qed.

Lemma FMConnect_long_address_witness :
  (256 < List.length (Go.CString Scenario.long_address))%nat
  /\ exists cParams,
       fmsdk.FMConnect (Scenario.daemon (0, 4096) (0, Scenario.empty_list 0) 0)
         Scenario.memory (Scenario.params Scenario.long_address 1) []
       = (Go.Ok (4096, 0), [fmsdk.EvConnect cParams]).
Proof.
  split.
  - apply Nat.ltb_lt. reflexivity.
  - apply (FMConnect_long_address
             (Scenario.daemon (0, 4096) (0, Scenario.empty_list 0) 0)
             Scenario.memory (Scenario.params Scenario.long_address 1) []).
    apply Nat.ltb_lt. reflexivity.
Defined.

(** C1, as stated, fails for an address of 256 bytes (257 encoded): the
    native call is issued, with a buffer that holds the 256 bytes and no
    terminating null, and the daemon's success is returned. *)
Lemma FMConnect_long_address_not_rejected :
  fmsdk.FMConnect (Scenario.daemon (0, 4096) (0, Scenario.empty_list 0) 0)
    Scenario.memory (Scenario.params Scenario.long_address 1) []
  = (Go.Ok (4096, fmsdk.FM_ST_SUCCESS),
     [fmsdk.EvConnect
        {| C.version := 16777484;
           C.addressInfo := Scenario.chars "a" 256;
           C.timeoutMs := 5000;
           C.addressIsUnixSocket := 0 |}]).
Proof. vm_compute. reflexivity. Qed.

(** ** Activate and deactivate *)

(** C6.  [FMActivateFabricPartition] and [FMDeactivateFabricPartition] each
    add exactly one native call to the trace and return its return code as
    it is (the conversion from the native return type changes no value).  When that code is [FM_ST_IN_USE], whose description is "In use",
    [cmdActivate] reports the failure with that description after the one
    call and leaves the process; nothing is tried again. *)
Theorem activate_deactivate_single_call
  (native : fmsdk.Native) (handle : fmsdk.FMHandle) (partitionID : Z)
  (tr : list fmsdk.Event) :
  fmsdk.FMActivateFabricPartition native handle partitionID tr
  = (Go.Ok (fmsdk.FMReturn_of_C
              (fmsdk.fmActivateFabricPartition native tr handle
                 (CInt.uint partitionID))),
     tr ++ [fmsdk.EvActivateFabricPartition handle (CInt.uint partitionID)])
  /\ fmsdk.FMDeactivateFabricPartition native handle partitionID tr
     = (Go.Ok (fmsdk.FMReturn_of_C
                 (fmsdk.fmDeactivateFabricPartition native tr handle
                    (CInt.uint partitionID))),
        tr ++ [fmsdk.EvDeactivateFabricPartition handle (CInt.uint partitionID)])
  /\ (forall code, - 2 ^ 31 <= code < 2 ^ 31 -> fmsdk.FMReturn_of_C code = code)
  /\ fmsdk.String_ fmsdk.FM_ST_IN_USE = "In use"%string
  /\ (fmsdk.fmActivateFabricPartition native tr handle (CInt.uint partitionID)
      = C.fmReturn_value C.FM_ST_IN_USE ->
      fst (fmsdk.FMActivateFabricPartition native handle partitionID tr)
      = Go.Ok fmsdk.FM_ST_IN_USE
      /\ fmctl.cmdActivate native handle partitionID tr
         = (Go.Exit 1,
            tr ++ [fmsdk.EvActivateFabricPartition handle (CInt.uint partitionID);
                   fmsdk.EvStderr
                     ("Error: Failed to activate partition "
                      ++ Go.itoa partitionID ++ ": In use" ++ fmctl.nl)])).
Proof.
  split; [reflexivity |].
  split; [reflexivity |].
  split; [intros code Hcode; apply int_small; exact Hcode |].
  split; [reflexivity |].
  intros Hbusy. split.
  - unfold fmsdk.FMActivateFabricPartition, fmsdk.bind, fmsdk.call, fmsdk.ret.
    simpl. rewrite Hbusy. reflexivity.
  - unfold fmctl.cmdActivate, fmsdk.FMActivateFabricPartition, fmsdk.bind,
      fmsdk.call, fmsdk.ret, fmctl.stderr, fmctl.os_Exit.
    simpl. rewrite Hbusy. simpl. rewrite <- app_assoc. reflexivity.
Qed.

Lemma activate_deactivate_single_call_witness :
  fmctl.cmdActivate (Scenario.daemon (0, 4096) (0, Scenario.empty_list 0) (-7))
    4096 7 []
  = (Go.Exit 1,
     [fmsdk.EvActivateFabricPartition 4096 7;
      fmsdk.EvStderr ("Error: Failed to activate partition 7: In use"
                      ++ fmctl.nl)]).
Proof.
  apply (activate_deactivate_single_call
           (Scenario.daemon (0, 4096) (0, Scenario.empty_list 0) (-7))
           4096 7 []).
  reflexivity.
Defined.

(** ** Bounded strings *)

Lemma GoString_app (buf rest : list ascii) :
  In zero buf ->
  Go.GoString (buf ++ rest) = Go.Ok (StringSpec.decode_bounded_string buf).
Proof.
  induction buf as [| c buf IH]; intros Hin.
  - destruct Hin.
  - simpl. destruct (Ascii.eqb c zero) eqn:E.
    + reflexivity.
    + rewrite IH.
      * reflexivity.
      * destruct Hin as [Hc | Hin]; [| exact Hin].
        subst c. rewrite Ascii.eqb_refl in E. discriminate.
Qed.

Lemma GoString_Ok (mem : list ascii) :
  In zero mem -> exists s, Go.GoString mem = Go.Ok s.
Proof.
  intros H. exists (StringSpec.decode_bounded_string mem).
  rewrite <- (app_nil_r mem) at 1. apply GoString_app. exact H.
Qed.

Lemma decode_bounded_string_length (buf : list ascii) :
  In zero buf ->
  (String.length (StringSpec.decode_bounded_string buf) < List.length buf)%nat.
Proof.
  induction buf as [| c buf IH]; intros Hin.
  - destruct Hin.
  - simpl. destruct (Ascii.eqb c zero) eqn:E.
    + simpl. lia.
    + simpl. apply -> Nat.succ_lt_mono. apply IH.
      destruct Hin as [Hc | Hin]; [| exact Hin].
      subst c. rewrite Ascii.eqb_refl in E. discriminate.
Qed.

(** A buffer to which only nulls were written starts with a null. *)
Lemma buffer_all_zero (n : nat) (written : list ascii) :
  Forall (eq zero) written ->
  exists tail, Go.buffer (S n) written = zero :: tail.
Proof.
  intros H. unfold Go.buffer. destruct written as [| c written].
  - simpl. eexists. reflexivity.
  - inversion H as [| ? ? Hc ?]. subst. simpl. eexists. reflexivity.
Qed.

(** C8 (as amended).  For every fixed-size character buffer that holds a
    null, the decode gives the bytes in front of the first null, a string
    shorter than the buffer, whatever follows the buffer in memory.  An
    all-zero buffer, such as the UUID of a GPU entry, decodes to the empty
    string: a value, not an error. *)
Theorem GoString_terminated_buffer
  (n : nat) (written rest : list ascii) :
  In zero (Go.buffer n written) ->
  Go.GoString (Go.buffer n written ++ rest)
  = Go.Ok (StringSpec.decode_bounded_string (Go.buffer n written))
  /\ (String.length (StringSpec.decode_bounded_string (Go.buffer n written))
      < List.length (Go.buffer n written))%nat
  /\ (forall memory gpu,
         Forall (eq zero) (C.uuid gpu) ->
         Go.GoString (fmsdk.from_uuid memory gpu) = Go.Ok EmptyString).
Proof.
  intros Hin. repeat split.
  - apply GoString_app. exact Hin.
  - apply decode_bounded_string_length. exact Hin.
  - intros memory gpu Hzero. unfold fmsdk.from_uuid.
    change (Z.to_nat C.FM_UUID_BUFFER_SIZE) with 80%nat.
    destruct (buffer_all_zero 79 (C.uuid gpu) Hzero) as [tail E].
    rewrite E. reflexivity.
Qed.

Lemma GoString_terminated_buffer_witness :
  In zero (Go.buffer 32 (list_ascii_of_string "00000000:1B:00.0"))
  /\ Go.GoString (Go.buffer 32 (list_ascii_of_string "00000000:1B:00.0")
                  ++ Go.le32 18)
     = Go.Ok "00000000:1B:00.0"%string.
Proof.
  split.
  - vm_compute. tauto.
  - apply (GoString_terminated_buffer 32
             (list_ascii_of_string "00000000:1B:00.0") (Go.le32 18)).
    vm_compute. tauto.
Defined.

(** C8, as stated, fails for a UUID buffer without a null: the scan does not
    stop at the end of the 80 bytes, it goes on into the PCI bus identifier
    that follows in the structure. *)
Lemma GoString_unterminated_uuid :
  Go.GoString
    (fmsdk.from_uuid Scenario.memory
       (Scenario.gpu 1 (Scenario.chars "A" 80) (Scenario.chars "B" 1)))
  = Go.Ok (string_of_list_ascii (Scenario.chars "A" 80 ++ Scenario.chars "B" 1))
  /\ StringSpec.decode_bounded_string
       (Go.buffer 80 (C.uuid (Scenario.gpu 1 (Scenario.chars "A" 80)
                                (Scenario.chars "B" 1))))
     = string_of_list_ascii (Scenario.chars "A" 80)
  /\ String.length
       (string_of_list_ascii (Scenario.chars "A" 80 ++ Scenario.chars "B" 1))
     = 81%nat.
Proof. repeat split. Qed.

(** ** Loops that fill a slice *)

Section ForEach.

Context {T : Type}.
Variable body : Z -> Go.Outcome T.

(** A loop whose every iteration returns, returns. *)
Lemma for_each_Ok (count : nat) : forall i : Z,
  (forall k, (k < count)%nat -> exists x, body (i + Z.of_nat k) = Go.Ok x) ->
  exists xs, Go.for_each body i count = Go.Ok xs.
Proof.
  induction count as [| count IH]; intros i H.
  - exists []. reflexivity.
  - destruct (H 0%nat) as [x Hx]; [lia |].
    rewrite Z.add_0_r in Hx.
    destruct (IH (i + 1)) as [xs Hxs].
    + intros k Hk. destruct (H (S k)) as [y Hy]; [lia |].
      exists y. rewrite <- Hy. f_equal. lia.
    + exists (x :: xs). simpl. rewrite Hx. simpl. rewrite Hxs. reflexivity.
Qed.

(** The slice a loop returns has one element per iteration, each the value
    of its iteration. *)
Lemma for_each_Ok_inv (count : nat) : forall (i : Z) (xs : list T),
  Go.for_each body i count = Go.Ok xs ->
  List.length xs = count
  /\ forall k x, nth_error xs k = Some x -> body (i + Z.of_nat k) = Go.Ok x.
Proof.
  induction count as [| count IH]; intros i xs H.
  - simpl in H. injection H as <-. split; [reflexivity |].
    intros k x Hk. destruct k; discriminate.
  - simpl in H.
    destruct (body i) as [x0 | | |] eqn:E0; simpl in H; try discriminate.
    destruct (Go.for_each body (i + 1) count) as [ys | | |] eqn:E1;
      simpl in H; try discriminate.
    injection H as <-.
    destruct (IH _ _ E1) as [Hlen Hnth]. split.
    + simpl. rewrite Hlen. reflexivity.
    + intros k x Hk. destruct k as [| k].
      * simpl in Hk. injection Hk as <-. rewrite Z.add_0_r. exact E0.
      * simpl in Hk. rewrite <- (Hnth _ _ Hk). f_equal. lia.
Qed.

(** A loop with an iteration that does not return, does not return. *)
Lemma for_each_not_Ok (count : nat) : forall (i : Z) (k : nat),
  (k < count)%nat ->
  Go.is_Ok (body (i + Z.of_nat k)) = false ->
  Go.is_Ok (Go.for_each body i count) = false.
Proof.
  induction count as [| count IH]; intros i k Hk Hbody.
  - lia.
  - simpl. destruct (body i) as [x0 | | |] eqn:E0; simpl; try reflexivity.
    destruct k as [| k].
    + rewrite Z.add_0_r, E0 in Hbody. discriminate.
    + assert (Hrec : Go.is_Ok (Go.for_each body (i + 1) count) = false).
      { apply (IH (i + 1) k); [lia |].
        rewrite <- Hbody. do 2 f_equal. lia. }
      destruct (Go.for_each body (i + 1) count); simpl;
        try reflexivity; discriminate.
Qed.

Lemma for_range_not_Ok (n k : Z) :
  0 <= k < n ->
  Go.is_Ok (body k) = false ->
  Go.is_Ok (Go.for_range n body) = false.
Proof.
  intros Hk Hbody. unfold Go.for_range.
  apply (for_each_not_Ok _ 0 (Z.to_nat k)); [lia |].
  rewrite Z.add_0_l, Z2Nat.id by lia. exact Hbody.
Qed.

Lemma for_range_Ok (n : Z) :
  (forall k, 0 <= k < n -> exists x, body k = Go.Ok x) ->
  exists xs, Go.for_range n body = Go.Ok xs.
Proof.
  intros H. unfold Go.for_range. apply for_each_Ok.
  intros k Hk. apply H. lia.
Qed.

Lemma for_range_Ok_inv (n : Z) (xs : list T) :
  0 <= n ->
  Go.for_range n body = Go.Ok xs ->
  Z.of_nat (List.length xs) = n
  /\ forall k x, nth_error xs k = Some x -> body (Z.of_nat k) = Go.Ok x.
Proof.
  intros Hn H. unfold Go.for_range in H.
  destruct (for_each_Ok_inv _ _ _ H) as [Hlen Hnth]. split.
  - rewrite Hlen. lia.
  - intros k x Hk. apply (Hnth k x Hk).
Qed.

End ForEach.

Lemma is_Ok_false {A : Type} (o : Go.Outcome A) :
  Go.is_Ok o = false -> forall a, o <> Go.Ok a.
Proof. intros H a E. rewrite E in H. discriminate. Qed.

Lemma index_in_range {T : Type} (n : Z) (zero : T) (a : list T) (i : Z) :
  0 <= i < n -> Go.index n zero a i = Go.Ok (nth (Z.to_nat i) a zero).
Proof.
  intros H. unfold Go.index.
  replace ((0 <=? i) && (i <? n)) with true; [reflexivity |].
  symmetry. apply andb_true_iff. split; [apply Z.leb_le | apply Z.ltb_lt]; lia.
Qed.

Lemma index_out_of_range {T : Type} (n : Z) (zero : T) (a : list T) (i : Z) :
  n <= i ->
  Go.index n zero a i
  = Go.Panic ("runtime error: index out of range [" ++ Go.itoa i
              ++ "] with length " ++ Go.itoa n).
Proof.
  intros H. unfold Go.index.
  replace ((0 <=? i) && (i <? n)) with false; [reflexivity |].
  symmetry. apply andb_false_iff. right. apply Z.ltb_ge. exact H.
Qed.

(** ** Decoding the partition list *)

Section Decode.

Import fmsdk.

Variable memory : Memory.

Lemma convert_gpu_Ok partition j :
  0 <= j < C.FM_MAX_NUM_GPUS ->
  In zero (from_pciBusId memory (gpu_at partition j)) ->
  exists info, convert_gpu memory partition j = Go.Ok info.
Proof.
  intros Hj Hz. unfold convert_gpu.
  rewrite index_in_range by exact Hj. simpl. fold (gpu_at partition j).
  destruct (GoString_Ok (from_uuid memory (gpu_at partition j))) as [u Hu].
  { unfold from_uuid. apply in_or_app. right. exact Hz. }
  destruct (GoString_Ok _ Hz) as [b Hb].
  rewrite Hu. simpl. rewrite Hb. simpl. eexists. reflexivity.
Qed.

Lemma convert_gpu_out_of_range partition j :
  C.FM_MAX_NUM_GPUS <= j ->
  Go.is_Ok (convert_gpu memory partition j) = false.
Proof.
  intros Hj. unfold convert_gpu.
  rewrite index_out_of_range by exact Hj. reflexivity.
Qed.

Lemma convert_partition_Ok partitionList i :
  0 <= i < C.FM_MAX_FABRIC_PARTITIONS ->
  CInt.uint (C.numGpus (partition_at partitionList i)) <= C.FM_MAX_NUM_GPUS ->
  (forall j, 0 <= j < CInt.uint (C.numGpus (partition_at partitionList i)) ->
             In zero (from_pciBusId memory
                        (gpu_at (partition_at partitionList i) j))) ->
  exists p, convert_partition memory partitionList i = Go.Ok p.
Proof.
  intros Hi Hm Hz. unfold convert_partition.
  rewrite index_in_range by exact Hi. simpl. fold (partition_at partitionList i).
  destruct (for_range_Ok (convert_gpu memory (partition_at partitionList i))
              (CInt.uint (C.numGpus (partition_at partitionList i))))
    as [gpus Hgpus].
  { intros j Hj. apply convert_gpu_Ok; [lia | apply Hz; exact Hj]. }
  rewrite Hgpus. simpl. eexists. reflexivity.
Qed.

Lemma convert_partition_inv partitionList i p :
  convert_partition memory partitionList i = Go.Ok p ->
  0 <= i < C.FM_MAX_FABRIC_PARTITIONS
  /\ PartitionID p = CInt.uint (C.partitionId (partition_at partitionList i))
  /\ NumGpus p = CInt.uint (C.numGpus (partition_at partitionList i))
  /\ Z.of_nat (List.length (GPUInfo p)) = NumGpus p.
Proof.
  unfold convert_partition. intros H.
  destruct (Z_lt_ge_dec i C.FM_MAX_FABRIC_PARTITIONS) as [Hlt | Hge];
    [| rewrite index_out_of_range in H by lia; discriminate].
  destruct (Z_lt_ge_dec i 0) as [Hneg | Hpos].
  { unfold Go.index in H.
    replace (0 <=? i) with false in H by (symmetry; apply Z.leb_gt; exact Hneg).
    discriminate. }
  rewrite index_in_range in H by lia. simpl in H.
  fold (partition_at partitionList i) in H.
  destruct (Go.for_range _ _) as [gpus | | |] eqn:E; simpl in H; try discriminate.
  injection H as <-. simpl.
  apply for_range_Ok_inv in E; [| apply uint_range].
  repeat split; try lia.
Qed.

Lemma convert_partition_out_of_range partitionList i :
  C.FM_MAX_FABRIC_PARTITIONS <= i ->
  Go.is_Ok (convert_partition memory partitionList i) = false.
Proof.
  intros Hi. unfold convert_partition.
  rewrite index_out_of_range by exact Hi. reflexivity.
Qed.

Lemma convert_partition_too_many_gpus partitionList i :
  C.FM_MAX_NUM_GPUS < CInt.uint (C.numGpus (partition_at partitionList i)) ->
  Go.is_Ok (convert_partition memory partitionList i) = false.
Proof.
  intros Hm. unfold convert_partition.
  destruct (Go.index _ _ _ i) as [partition | | |] eqn:E; try reflexivity.
  assert (Hp : partition = partition_at partitionList i).
  { unfold Go.index in E. destruct ((0 <=? i) && (i <? _)); [| discriminate].
    injection E as <-. reflexivity. }
  subst partition. simpl.
  assert (Hloop : Go.is_Ok
            (Go.for_range (CInt.uint (C.numGpus (partition_at partitionList i)))
               (convert_gpu memory (partition_at partitionList i))) = false).
  { apply (for_range_not_Ok _ _ C.FM_MAX_NUM_GPUS).
    - unfold C.FM_MAX_NUM_GPUS in *. lia.
    - apply convert_gpu_out_of_range. lia. }
  destruct (Go.for_range _ _); simpl; try reflexivity; discriminate.
Qed.

(** What [FMGetSupportedFabricPartitions] does with the answer of the
    native call. *)
Lemma FMGetSupportedFabricPartitions_success native handle tr r partitionList :
  fmGetSupportedFabricPartitions native tr handle list_request
  = (r, partitionList) ->
  FMReturn_of_C r = FM_ST_SUCCESS ->
  FMGetSupportedFabricPartitions native memory handle tr
  = (Go.bind (convert_list memory partitionList)
       (fun result => Go.Ok (result, FM_ST_SUCCESS)),
     tr ++ [EvGetSupportedFabricPartitions handle
              C.fmFabricPartitionList_version]).
Proof.
  intros Hcall Hr.
  unfold FMGetSupportedFabricPartitions, bind, call, lift, ret.
  rewrite Hcall, Hr. simpl.
  destruct (convert_list memory partitionList); reflexivity.
Qed.

Lemma FMGetSupportedFabricPartitions_failure native handle tr r partitionList :
  fmGetSupportedFabricPartitions native tr handle list_request
  = (r, partitionList) ->
  FMReturn_of_C r <> FM_ST_SUCCESS ->
  FMGetSupportedFabricPartitions native memory handle tr
  = (Go.Ok ([], FMReturn_of_C r),
     tr ++ [EvGetSupportedFabricPartitions handle
              C.fmFabricPartitionList_version]).
Proof.
  intros Hcall Hr.
  unfold FMGetSupportedFabricPartitions, bind, call, lift, ret.
  rewrite Hcall. apply Z.eqb_neq in Hr. rewrite Hr. reflexivity.
Qed.

End Decode.

(** C2 (as amended).  For every partition-list response with a declared
    count [n] of at most 64, whose first [n] entries each declare at most 16
    GPUs with null-terminated identifiers, decoding produces exactly [n]
    entries, and entry [i] holds exactly as many GPU entries as partition [i]
    declares.  When the declared count exceeds 64, or the GPU count of one of
    the first [n] entries exceeds 16, decoding produces no result, and
    [FMGetSupportedFabricPartitions] returns nothing to its caller, neither
    a list nor a return code: the binding has no protocol-violation value.
    [FMGetSupportedFabricPartitions] returns what this decoding produces. *)
Theorem convert_list_declared_count
  (memory : fmsdk.Memory) (partitionList : C.fmFabricPartitionList_v2) :
  (CInt.uint (C.numPartitions partitionList) <= C.FM_MAX_FABRIC_PARTITIONS ->
   (forall i, 0 <= i < CInt.uint (C.numPartitions partitionList) ->
      CInt.uint (C.numGpus (partition_at partitionList i)) <= C.FM_MAX_NUM_GPUS) ->
   (forall i j, 0 <= i < CInt.uint (C.numPartitions partitionList) ->
      0 <= j < CInt.uint (C.numGpus (partition_at partitionList i)) ->
      In zero (fmsdk.from_pciBusId memory
                 (gpu_at (partition_at partitionList i) j))) ->
   exists result,
     fmsdk.convert_list memory partitionList = Go.Ok result
     /\ Z.of_nat (List.length result) = CInt.uint (C.numPartitions partitionList)
     /\ forall i p, nth_error result i = Some p ->
          Z.of_nat (List.length (fmsdk.GPUInfo p))
          = CInt.uint (C.numGpus (partition_at partitionList (Z.of_nat i)))
          /\ fmsdk.PartitionID p
             = CInt.uint (C.partitionId (partition_at partitionList (Z.of_nat i))))
  /\ (C.FM_MAX_FABRIC_PARTITIONS < CInt.uint (C.numPartitions partitionList) ->
      forall result, fmsdk.convert_list memory partitionList <> Go.Ok result)
  /\ (forall i, 0 <= i < CInt.uint (C.numPartitions partitionList) ->
      C.FM_MAX_NUM_GPUS < CInt.uint (C.numGpus (partition_at partitionList i)) ->
      forall result, fmsdk.convert_list memory partitionList <> Go.Ok result)
  /\ (forall native handle tr r,
        fmsdk.fmGetSupportedFabricPartitions native tr handle fmsdk.list_request
        = (r, partitionList) ->
        fmsdk.FMReturn_of_C r = fmsdk.FM_ST_SUCCESS ->
        fst (fmsdk.FMGetSupportedFabricPartitions native memory handle tr)
        = Go.bind (fmsdk.convert_list memory partitionList)
            (fun result => Go.Ok (result, fmsdk.FM_ST_SUCCESS)))
  /\ (forall native handle tr r,
        fmsdk.fmGetSupportedFabricPartitions native tr handle fmsdk.list_request
        = (r, partitionList) ->
        fmsdk.FMReturn_of_C r = fmsdk.FM_ST_SUCCESS ->
        C.FM_MAX_FABRIC_PARTITIONS < CInt.uint (C.numPartitions partitionList)
        \/ (exists i,
               0 <= i < CInt.uint (C.numPartitions partitionList)
               /\ C.FM_MAX_NUM_GPUS
                  < CInt.uint (C.numGpus (partition_at partitionList i))) ->
        forall result code,
          fst (fmsdk.FMGetSupportedFabricPartitions native memory handle tr)
          <> Go.Ok (result, code)).
Proof.
  assert (Hcount :
            C.FM_MAX_FABRIC_PARTITIONS < CInt.uint (C.numPartitions partitionList) ->
            Go.is_Ok (fmsdk.convert_list memory partitionList) = false).
  { intros Hn. unfold fmsdk.convert_list.
    apply (for_range_not_Ok _ _ C.FM_MAX_FABRIC_PARTITIONS).
    - unfold C.FM_MAX_FABRIC_PARTITIONS in *. lia.
    - apply convert_partition_out_of_range. lia. }
  assert (Hgpus :
            forall i, 0 <= i < CInt.uint (C.numPartitions partitionList) ->
              C.FM_MAX_NUM_GPUS
              < CInt.uint (C.numGpus (partition_at partitionList i)) ->
              Go.is_Ok (fmsdk.convert_list memory partitionList) = false).
  { intros i Hi Hm. unfold fmsdk.convert_list.
    apply (for_range_not_Ok _ _ i Hi).
    apply convert_partition_too_many_gpus. exact Hm. }
  split; [| split; [| split; [| split]]].
  - intros Hn Hm Hz.
    destruct (for_range_Ok (fmsdk.convert_partition memory partitionList)
                (CInt.uint (C.numPartitions partitionList))) as [result Hres].
    { intros i Hi. apply convert_partition_Ok.
      - unfold C.FM_MAX_FABRIC_PARTITIONS in *. lia.
      - apply Hm. exact Hi.
      - intros j Hj. apply Hz; assumption. }
    exists result. split; [exact Hres |].
    apply for_range_Ok_inv in Hres; [| apply uint_range].
    destruct Hres as [Hlen Hnth]. split; [exact Hlen |].
    intros i p Hp. apply Hnth in Hp.
    apply convert_partition_inv in Hp.
    destruct Hp as (_ & Hid & Hnum & Hinfo). split; congruence.
  - intros Hn. apply is_Ok_false. apply Hcount. exact Hn.
  - intros i Hi Hm. apply is_Ok_false. apply (Hgpus i Hi Hm).
  - intros native handle tr r Hcall Hr.
    rewrite (FMGetSupportedFabricPartitions_success memory native handle tr r
               partitionList Hcall Hr).
    reflexivity.
  - intros native handle tr r Hcall Hr Hbeyond result code.
    rewrite (FMGetSupportedFabricPartitions_success memory native handle tr r
               partitionList Hcall Hr).
    assert (Hno : Go.is_Ok (fmsdk.convert_list memory partitionList) = false).
    { destruct Hbeyond as [Hn | (i & Hi & Hm)];
        [apply Hcount; exact Hn | apply (Hgpus i Hi Hm)]. }
    destruct (fmsdk.convert_list memory partitionList);
      simpl in *; discriminate.
Qed.

Lemma convert_list_declared_count_witness :
  exists result,
    fmsdk.convert_list Scenario.memory Scenario.two_partitions = Go.Ok result
    /\ Z.of_nat (List.length result) = 2.
Proof.
  destruct (convert_list_declared_count Scenario.memory Scenario.two_partitions)
    as [Hdecode _].
  destruct Hdecode as (result & Hres & Hlen & _).
  - vm_compute. discriminate.
  - intros i Hi. change (CInt.uint (C.numPartitions Scenario.two_partitions))
      with 2 in Hi.
    assert (Hcases : i = 0 \/ i = 1) by lia.
    destruct Hcases as [-> | ->]; vm_compute; discriminate.
  - intros i j Hi Hj.
    change (CInt.uint (C.numPartitions Scenario.two_partitions)) with 2 in Hi.
    assert (Hcases : i = 0 \/ i = 1) by lia.
    destruct Hcases as [-> | ->].
    + change (CInt.uint (C.numGpus (partition_at Scenario.two_partitions 0)))
        with 1 in Hj.
      assert (j = 0) by lia. subst j. vm_compute. tauto.
    + change (CInt.uint (C.numGpus (partition_at Scenario.two_partitions 1)))
        with 0 in Hj. lia.
  - exists result. split; [exact Hres | exact Hlen].
Defined.

(** C2, as stated, fails for a declared count of 65 over zeroed entries, and
    for a declared GPU count of 17 in a single entry: at these two responses
    the index check of the fixed-capacity array ends the decode, and the
    caller gets no protocol-violation result. *)
Lemma convert_list_count_beyond_capacity :
  fmsdk.FMGetSupportedFabricPartitions
    (Scenario.daemon (0, 4096) (0, Scenario.empty_list 65) 0)
    Scenario.memory 4096 []
  = (Go.Panic "runtime error: index out of range [64] with length 64",
     [fmsdk.EvGetSupportedFabricPartitions 4096
        C.fmFabricPartitionList_version])
  /\ fmsdk.convert_list Scenario.memory
       {| C.list_version := C.fmFabricPartitionList_version;
          C.numPartitions := 1;
          C.maxNumPartitions := 64;
          C.partitionInfo := [Scenario.partition 0 1 17 []] |}
     = Go.Panic "runtime error: index out of range [16] with length 16".
Proof. split; vm_compute; reflexivity. Qed.

(** ** Traces of the driver *)

Section Appends.

Import fmsdk fmctl.

Variable P : Event -> Prop.

Lemma appends_ret {A : Type} (a : A) : appends P (ret a).
Proof. intros tr. exists []. simpl. rewrite app_nil_r. auto. Qed.

Lemma appends_lift {A : Type} (o : Go.Outcome A) : appends P (lift o).
Proof. intros tr. exists []. simpl. rewrite app_nil_r. auto. Qed.

Lemma appends_os_Exit {A : Type} (code : Z) : appends P (@os_Exit A code).
Proof. intros tr. exists []. simpl. rewrite app_nil_r. auto. Qed.

Lemma appends_call {A : Type} (answer : list Event -> A) (ev : Event) :
  P ev -> appends P (call answer ev).
Proof. intros H tr. exists [ev]. simpl. auto. Qed.

Lemma appends_stderr (text : string) :
  P (EvStderr text) -> appends P (stderr text).
Proof. intros H tr. exists [EvStderr text]. simpl. auto. Qed.

Lemma appends_usage : P EvUsage -> appends P usage.
Proof. intros H tr. exists [EvUsage]. simpl. auto. Qed.

Lemma appends_bind {A B : Type} (m : M A) (k : A -> M B) :
  appends P m -> (forall a, appends P (k a)) -> appends P (bind m k).
Proof.
  intros Hm Hk tr. unfold bind.
  destruct (Hm tr) as (evs & E & HP).
  destruct (m tr) as [[a | msg | code |] tr']; simpl in E; subst tr';
    try (exists evs; simpl; auto; fail).
  destruct (Hk a (tr ++ evs)) as (evs' & E' & HP').
  exists (evs ++ evs'). rewrite E', app_assoc. split; [reflexivity |].
  apply Forall_app. auto.
Qed.

End Appends.

Ltac appends_step :=
  first
    [ apply appends_ret
    | apply appends_lift
    | apply appends_os_Exit
    | apply appends_call; reflexivity
    | apply appends_stderr; reflexivity
    | apply appends_usage; reflexivity
    | apply appends_bind; [| intros ?]
    | match goal with
      | |- fmctl.appends _ (if ?c then _ else _) => destruct c
      | |- fmctl.appends _ (match ?x with _ => _ end) => destruct x
      end ].

Section Quiet.

Import fmsdk fmctl.

Variable native : Native.
Variable memory : Memory.
Variable flags : Flags.
Variable Quote : string -> string.

Lemma cmdList_quiet handle : appends quiet (cmdList native memory handle).
Proof.
  unfold cmdList, FMGetSupportedFabricPartitions. repeat appends_step.
Qed.

Lemma cmdStatus_quiet handle id : appends quiet (cmdStatus native memory handle id).
Proof.
  unfold cmdStatus, FMGetSupportedFabricPartitions. repeat appends_step.
Qed.

Lemma cmdActivate_quiet handle id : appends quiet (cmdActivate native handle id).
Proof.
  unfold cmdActivate, FMActivateFabricPartition. repeat appends_step.
Qed.

Lemma cmdDeactivate_quiet handle id :
  appends quiet (cmdDeactivate native handle id).
Proof.
  unfold cmdDeactivate, FMDeactivateFabricPartition. repeat appends_step.
Qed.

Lemma with_partition_id_quiet name cmd :
  (forall id, appends quiet (cmd id)) ->
  appends quiet (with_partition_id flags Quote name cmd).
Proof.
  intros H. unfold with_partition_id.
  repeat first [apply H | appends_step].
Qed.

(** The switch of [main] never disconnects. *)
Lemma execute_quiet command handle :
  appends quiet (execute native memory flags Quote command handle).
Proof.
  unfold execute.
  repeat first
    [ apply cmdList_quiet
    | apply with_partition_id_quiet; intros ?
    | apply cmdStatus_quiet | apply cmdActivate_quiet | apply cmdDeactivate_quiet
    | appends_step ].
Qed.

End Quiet.

Lemma disconnects_app handle (tr evs : list fmsdk.Event) :
  fmctl.disconnects handle (tr ++ evs)
  = (fmctl.disconnects handle tr + fmctl.disconnects handle evs)%nat.
Proof. unfold fmctl.disconnects. rewrite filter_app, length_app. reflexivity. Qed.

Lemma disconnects_quiet handle (evs : list fmsdk.Event) :
  Forall fmctl.quiet evs -> fmctl.disconnects handle evs = 0%nat.
Proof.
  unfold fmctl.disconnects. induction 1 as [| ev evs Hev _ IH]; [reflexivity |].
  simpl. destruct ev; try exact IH. discriminate Hev.
Qed.

Lemma disconnects_single handle :
  fmctl.disconnects handle [fmsdk.EvDisconnect handle] = 1%nat.
Proof. unfold fmctl.disconnects. simpl. rewrite Z.eqb_refl. reflexivity. Qed.

Lemma quiet_not_In handle (evs : list fmsdk.Event) :
  Forall fmctl.quiet evs -> ~ In (fmsdk.EvDisconnect handle) evs.
Proof.
  intros H Hin. rewrite Forall_forall in H. specialize (H _ Hin). discriminate H.
Qed.

Section Session.

Import fmsdk fmctl.

Variable native : Native.
Variable memory : Memory.
Variable flags : Flags.
Variable Quote : string -> string.

(** The owning scope ends as its switch ends; the deferred disconnect is
    appended to the trace when the switch returns or panics, and is not when
    it leaves through [os.Exit] or faults. *)
Lemma session_trace command handle tr :
  exists evs,
    Forall quiet evs
    /\ snd (execute native memory flags Quote command handle tr) = tr ++ evs
    /\ session native memory flags Quote command handle tr
       = (fst (execute native memory flags Quote command handle tr),
          if unwinds (fst (execute native memory flags Quote command handle tr))
          then tr ++ evs ++ [EvDisconnect handle]
          else tr ++ evs).
Proof.
  destruct (execute_quiet native memory flags Quote command handle tr)
    as (evs & E & HP).
  exists evs. split; [exact HP |]. split; [exact E |].
  unfold session, defer_.
  destruct (execute native memory flags Quote command handle tr)
    as [[[] | msg | code |] tr'];
    simpl in E; subst tr'; simpl; try reflexivity.
  - unfold FMDisconnect, bind, call, ret. simpl. rewrite app_assoc. reflexivity.
  - unfold FMDisconnect, bind, call, ret. simpl. rewrite app_assoc. reflexivity.
Qed.

(** X20.  The number of disconnects of the owning scope: one when it ends by
    a return or a panic, none when it ends by [os.Exit] or a fault. *)
Lemma session_disconnects command handle tr :
  disconnects handle (snd (session native memory flags Quote command handle tr))
  = (disconnects handle tr
     + if unwinds (fst (session native memory flags Quote command handle tr))
       then 1 else 0)%nat.
Proof.
  destruct (session_trace command handle tr) as (evs & HP & _ & E).
  rewrite E. simpl.
  destruct (unwinds _); rewrite !disconnects_app, (disconnects_quiet _ _ HP).
  - rewrite disconnects_single. lia.
  - lia.
Qed.

(** A disconnect in the trace of [connected] was there before, or is the one
    of the handle that a successful native connect has returned. *)
Lemma connected_disconnect command tr h :
  In (EvDisconnect h) (snd (connected native memory flags Quote command tr)) ->
  In (EvDisconnect h) tr
  \/ exists cParams,
       h = snd (fmConnect native tr cParams)
       /\ FMReturn_of_C (fst (fmConnect native tr cParams)) = FM_ST_SUCCESS.
Proof.
  unfold connected, connectToFM, bind.
  match goal with |- context [FMConnect native memory ?p tr] => set (params := p) end.
  destruct (connect_request memory params) as [cParams | | |] eqn:E.
  - rewrite (FMConnect_call native memory params cParams tr E).
    destruct (FMReturn_of_C (fst (fmConnect native tr cParams)) =? FM_ST_SUCCESS)
      eqn:Hr; simpl.
    + destruct (session_trace command (snd (fmConnect native tr cParams))
                  (tr ++ [EvConnect cParams])) as (evs & HP & _ & Es).
      rewrite Es. simpl. intros Hin.
      assert (Hcases : In (EvDisconnect h) tr
                       \/ h = snd (fmConnect native tr cParams)).
      { destruct (unwinds _);
          repeat (apply in_app_or in Hin; destruct Hin as [Hin | Hin]);
          try (left; exact Hin);
          try (exfalso; apply (quiet_not_In h evs HP Hin));
          try (destruct Hin as [Hin | []]; try discriminate Hin;
               injection Hin as Hin; right; symmetry; exact Hin). }
      destruct Hcases as [Hold | ->]; [left; exact Hold |].
      right. exists cParams. split; [reflexivity |].
      apply Z.eqb_eq. exact Hr.
    + unfold stderr, os_Exit. simpl. intros Hin.
      apply in_app_or in Hin. destruct Hin as [Hin | Hin].
      * apply in_app_or in Hin. destruct Hin as [Hin | Hin]; [left; exact Hin |].
        destruct Hin as [Hin | []]. discriminate Hin.
      * destruct Hin as [Hin | []]. discriminate Hin.
  - unfold FMConnect, bind, lift. rewrite E. simpl. auto.
  - unfold FMConnect, bind, lift. rewrite E. simpl. auto.
  - unfold FMConnect, bind, lift. rewrite E. simpl. auto.
Qed.

(** [connected] adds at most one disconnect of a handle. *)
Lemma connected_disconnects command tr h :
  (disconnects h (snd (connected native memory flags Quote command tr))
   <= disconnects h tr + 1)%nat.
Proof.
  unfold connected, connectToFM, bind.
  match goal with |- context [FMConnect native memory ?p tr] => set (params := p) end.
  destruct (connect_request memory params) as [cParams | | |] eqn:E.
  - rewrite (FMConnect_call native memory params cParams tr E).
    destruct (negb _); simpl.
    + unfold stderr, os_Exit. simpl. rewrite !disconnects_app.
      unfold disconnects at 2 3. simpl. lia.
    + destruct (session_trace command (snd (fmConnect native tr cParams))
                  (tr ++ [EvConnect cParams])) as (evs & HP & _ & Es).
      rewrite Es. simpl.
      destruct (unwinds _);
        rewrite !disconnects_app, (disconnects_quiet _ _ HP).
      * assert (Hone : (disconnects h
                          [EvDisconnect (snd (fmConnect native tr cParams))]
                        <= 1)%nat).
        { unfold disconnects. simpl. destruct (_ =? h); simpl; lia. }
        unfold disconnects at 2. simpl. lia.
      * unfold disconnects at 2. simpl. lia.
  - unfold FMConnect, bind, lift. rewrite E. simpl. lia.
  - unfold FMConnect, bind, lift. rewrite E. simpl. lia.
  - unfold FMConnect, bind, lift. rewrite E. simpl. lia.
Qed.

End Session.

Section Main.

Import fmsdk fmctl.

Variable native : Native.
Variable memory : Memory.
Variable flags : Flags.
Variable Quote : string -> string.

(** The deferred shutdown adds its call when the body returns or panics. *)
Lemma defer_FMLibShutdown_trace {A : Type} (body : M A) tr :
  snd (defer_ (FMLibShutdown native) body tr)
  = snd (body tr) ++ (if unwinds (fst (body tr)) then [EvLibShutdown] else []).
Proof.
  unfold defer_, FMLibShutdown, bind, call, ret.
  destruct (body tr) as [[a | msg | code |] tr']; simpl;
    rewrite ?app_nil_r; reflexivity.
Qed.

(** [main] disconnects only a handle that a native connect has returned
    together with the success code. *)
Lemma main_disconnect h :
  In (EvDisconnect h) (snd (main native memory flags Quote [])) ->
  exists tr cParams,
    h = snd (fmConnect native tr cParams)
    /\ FMReturn_of_C (fst (fmConnect native tr cParams)) = FM_ST_SUCCESS.
Proof.
  unfold main.
  destruct (List.length (args flags) <? 1)%nat.
  { simpl. intros [H | []]. discriminate H. }
  destruct (String.eqb (nth 0 (args flags) EmptyString) "info").
  { simpl. intros []. }
  unfold bind at 1. unfold FMLibInit at 1. unfold bind at 1, call, ret. simpl.
  set (r := FMReturn_of_C (fmLibInit native [])).
  assert (Hnext : forall tr1,
             ~ In (EvDisconnect h) tr1 ->
             In (EvDisconnect h)
               (snd (defer_ (FMLibShutdown native)
                       (connected native memory flags Quote
                          (nth 0 (args flags) EmptyString)) tr1)) ->
             exists tr cParams,
               h = snd (fmConnect native tr cParams)
               /\ FMReturn_of_C (fst (fmConnect native tr cParams))
                  = FM_ST_SUCCESS).
  { intros tr1 Hfresh Hin. rewrite defer_FMLibShutdown_trace in Hin.
    apply in_app_or in Hin. destruct Hin as [Hin | Hin].
    - apply connected_disconnect in Hin. destruct Hin as [Hin | [cParams Hc]].
      + contradiction.
      + exists tr1, cParams. exact Hc.
    - destruct (unwinds _); [| destruct Hin].
      destruct Hin as [Hin | []]. discriminate Hin. }
  unfold bind.
  destruct (negb (r =? FM_ST_SUCCESS) && verbose flags); simpl.
  - apply Hnext. intros [H | [H | []]]; discriminate H.
  - apply Hnext. intros [H | []]. discriminate H.
Qed.

(** X19.  No run of [main] disconnects a handle more than once. *)
Lemma main_disconnects_at_most_once h :
  (disconnects h (snd (main native memory flags Quote [])) <= 1)%nat.
Proof.
  unfold main.
  destruct (List.length (args flags) <? 1)%nat.
  { simpl. unfold disconnects. simpl. lia. }
  destruct (String.eqb (nth 0 (args flags) EmptyString) "info").
  { simpl. unfold disconnects. simpl. lia. }
  unfold bind at 1. unfold FMLibInit at 1. unfold bind at 1, call, ret. simpl.
  set (r := FMReturn_of_C (fmLibInit native [])).
  assert (Hnext : forall tr1,
             disconnects h tr1 = 0%nat ->
             (disconnects h
                (snd (defer_ (FMLibShutdown native)
                        (connected native memory flags Quote
                           (nth 0 (args flags) EmptyString)) tr1)) <= 1)%nat).
  { intros tr1 Hfresh. rewrite defer_FMLibShutdown_trace, disconnects_app.
    pose proof (connected_disconnects native memory flags Quote
                  (nth 0 (args flags) EmptyString) tr1 h) as Hle.
    destruct (unwinds _); unfold disconnects at 2; simpl; lia. }
  unfold bind.
  destruct (negb (r =? FM_ST_SUCCESS) && verbose flags); simpl;
    apply Hnext; reflexivity.
Qed.

End Main.

(** C5 (as amended).  [FMConnect] returns the return code of the native call
    and, as the handle, what the call has left in its out-parameter, which
    holds [nil] before the call: on a return code other than success the
    handle is [nil] whenever the native call has left the out-parameter as it
    was.  [main] calls disconnect only on a handle that was returned with the
    success code. *)
Theorem FMConnect_handle_on_failure
  (native : fmsdk.Native) (memory : fmsdk.Memory)
  (params : fmsdk.FMConnectParams) (tr : list fmsdk.Event)
  (handle : fmsdk.FMHandle) (r : fmsdk.FMReturn) :
  fst (fmsdk.FMConnect native memory params tr) = Go.Ok (handle, r) ->
  r <> fmsdk.FM_ST_SUCCESS ->
  (exists cParams,
      snd (fmsdk.FMConnect native memory params tr)
      = tr ++ [fmsdk.EvConnect cParams]
      /\ handle = snd (fmsdk.fmConnect native tr cParams)
      /\ r = fmsdk.FMReturn_of_C (fst (fmsdk.fmConnect native tr cParams))
      /\ (snd (fmsdk.fmConnect native tr cParams) = fmsdk.nil ->
          handle = fmsdk.nil))
  /\ (forall flags Quote h,
         In (fmsdk.EvDisconnect h)
            (snd (fmctl.main native memory flags Quote [])) ->
         exists tr0 cParams,
           h = snd (fmsdk.fmConnect native tr0 cParams)
           /\ fmsdk.FMReturn_of_C (fst (fmsdk.fmConnect native tr0 cParams))
              = fmsdk.FM_ST_SUCCESS).
Proof.
  intros Hconnect Hr. split.
  - destruct (fmsdk.FMConnect native memory params tr) as [o tr'] eqn:E.
    simpl in Hconnect. subst o.
    destruct (FMConnect_inv native memory params tr handle r tr' E)
      as (cParams & _ & Hh & Hret & Htr).
    exists cParams. repeat split; try assumption. congruence.
  - intros flags Quote h. apply main_disconnect.
Qed.

Lemma FMConnect_handle_on_failure_witness :
  fst (fmsdk.FMConnect (Scenario.daemon (-5, 0) (0, Scenario.empty_list 0) 0)
         Scenario.memory (Scenario.params Scenario.default_address 1) [])
  = Go.Ok (fmsdk.nil, fmsdk.FM_ST_TIMEOUT)
  /\ fmsdk.FM_ST_TIMEOUT <> fmsdk.FM_ST_SUCCESS
  /\ exists cParams,
       fmsdk.nil
       = snd (fmsdk.fmConnect
                (Scenario.daemon (-5, 0) (0, Scenario.empty_list 0) 0)
                [] cParams).
Proof.
  split; [vm_compute; reflexivity |].
  split; [discriminate |].
  destruct (FMConnect_handle_on_failure
              (Scenario.daemon (-5, 0) (0, Scenario.empty_list 0) 0)
              Scenario.memory (Scenario.params Scenario.default_address 1)
              [] fmsdk.nil fmsdk.FM_ST_TIMEOUT)
    as [(cParams & _ & Hh & _) _].
  - vm_compute. reflexivity.
  - discriminate.
  - exists cParams. exact Hh.
Defined.

(** C5, as stated, fails when the native call writes its out-parameter and
    returns a failure: [FMConnect] returns that handle with the code. *)
Lemma FMConnect_handle_with_failure :
  fst (fmsdk.FMConnect (Scenario.daemon (-5, 4096) (0, Scenario.empty_list 0) 0)
         Scenario.memory (Scenario.params Scenario.default_address 1) [])
  = Go.Ok (4096, fmsdk.FM_ST_TIMEOUT)
  /\ 4096 <> fmsdk.nil
  /\ fmsdk.FM_ST_TIMEOUT <> fmsdk.FM_ST_SUCCESS.
Proof. repeat split; discriminate. Qed.

(** ** Runs of [main] *)

(** The [list] command against a daemon with two partitions: the handle is
    disconnected once, on the way out of [main]. *)
Example main_list_returns (Quote : string -> string) :
  fmctl.main (Scenario.daemon (0, 4096) (0, Scenario.two_partitions) 0)
    Scenario.memory (Scenario.flags ["list"%string]) Quote []
  = (Go.Ok tt,
     [fmsdk.EvLibInit;
      fmsdk.EvConnect Scenario.default_request;
      fmsdk.EvGetSupportedFabricPartitions 4096 C.fmFabricPartitionList_version;
      fmsdk.EvDisconnect 4096;
      fmsdk.EvLibShutdown]).
Proof. vm_compute. reflexivity. Qed.

(** The same command when the decode panics: the deferred calls run. *)
Example main_list_panics (Quote : string -> string) :
  fmctl.main (Scenario.daemon (0, 4096) (0, Scenario.empty_list 65) 0)
    Scenario.memory (Scenario.flags ["list"%string]) Quote []
  = (Go.Panic "runtime error: index out of range [64] with length 64",
     [fmsdk.EvLibInit;
      fmsdk.EvConnect Scenario.default_request;
      fmsdk.EvGetSupportedFabricPartitions 4096 C.fmFabricPartitionList_version;
      fmsdk.EvDisconnect 4096;
      fmsdk.EvLibShutdown]).
Proof. vm_compute. reflexivity. Qed.

(** The decode of the two partitions, in the daemon's order. *)
Example convert_two_partitions :
  fmsdk.convert_list Scenario.memory Scenario.two_partitions
  = Go.Ok
      [ {| fmsdk.PartitionID := 0; fmsdk.IsActive := true; fmsdk.NumGpus := 1;
           fmsdk.GPUInfo :=
             [ {| fmsdk.PhysicalID := 1; fmsdk.UUID := EmptyString;
                  fmsdk.PCIBusID := EmptyString;
                  fmsdk.NumNvLinksAvailable := 18;
                  fmsdk.MaxNumNvLinks := 18;
                  fmsdk.NvlinkLineRateMBps := 25000 |} ] |};
        {| fmsdk.PartitionID := 1; fmsdk.IsActive := false; fmsdk.NumGpus := 0;
           fmsdk.GPUInfo := [] |} ].
Proof. vm_compute. reflexivity. Qed.

(** The partition-id argument. *)
Example ParseUint_samples :
  fmctl.ParseUint "7" = inr 7
  /\ fmctl.ParseUint "4294967295" = inr 4294967295
  /\ fmctl.ParseUint "4294967296" = inl fmctl.ErrRange
  /\ fmctl.ParseUint "" = inl fmctl.ErrSyntax
  /\ fmctl.ParseUint "-1" = inl fmctl.ErrSyntax
  /\ fmctl.ParseUint "12a" = inl fmctl.ErrSyntax.
Proof. repeat split. Qed.

(** [activate 7] against a daemon that answers [FM_ST_IN_USE]: one native
    activate call, the report, and the exit. *)
Example main_activate_in_use (Quote : string -> string) :
  fmctl.main (Scenario.daemon (0, 4096) (0, Scenario.empty_list 0) (-7))
    Scenario.memory (Scenario.flags ["activate"; "7"]%string) Quote []
  = (Go.Exit 1,
     [fmsdk.EvLibInit;
      fmsdk.EvConnect Scenario.default_request;
      fmsdk.EvActivateFabricPartition 4096 7;
      fmsdk.EvStderr ("Error: Failed to activate partition 7: In use"
                      ++ fmctl.nl)]).
Proof. vm_compute. reflexivity. Qed.

(** A GPU entry none of whose bytes from the UUID on is null, at the end of
    the mapped memory: the scan for the null leaves the mapped bytes. *)
Example convert_list_unterminated_faults :
  fmsdk.convert_list Scenario.tight_memory
    {| C.list_version := C.fmFabricPartitionList_version;
       C.numPartitions := 1;
       C.maxNumPartitions := 64;
       C.partitionInfo :=
         [Scenario.partition 0 1 1
            [ {| C.physicalId := 1;
                 C.uuid := Scenario.chars "A" 80;
                 C.pciBusId := Scenario.chars "B" 32;
                 C.numNvLinksAvailable := 16843009;
                 C.maxNumNvLinks := 16843009;
                 C.nvlinkLineRateMBps := 16843009 |} ]] |}
  = Go.Fault.
Proof. vm_compute. reflexivity. Qed.

(** C3 (the code departs from it).  The [list] command against a daemon that
    accepts the connection, with handle 4096, and answers the partition query
    with [FM_ST_TIMEOUT]: [cmdList] leaves through [os.Exit(1)], and the
    process ends without a disconnect on the handle (and without the library
    shutdown): the deferred calls of [main] do not run. *)
Theorem main_error_exit_skips_disconnect (Quote : string -> string) :
  fmctl.main (Scenario.daemon (0, 4096) (-5, Scenario.empty_list 0) 0)
    Scenario.memory (Scenario.flags ["list"%string]) Quote []
  = (Go.Exit 1,
     [fmsdk.EvLibInit;
      fmsdk.EvConnect Scenario.default_request;
      fmsdk.EvGetSupportedFabricPartitions 4096 C.fmFabricPartitionList_version;
      fmsdk.EvStderr ("Error: Failed to get fabric partitions: Timeout"
                      ++ fmctl.nl)])
  /\ fmctl.disconnects 4096
       (snd (fmctl.main
               (Scenario.daemon (0, 4096) (-5, Scenario.empty_list 0) 0)
               Scenario.memory (Scenario.flags ["list"%string]) Quote []))
     = 0%nat.
Proof. split; vm_compute; reflexivity. Qed.

(** * Further properties *)

(** ** Descriptions of return codes *)

Lemma to_int_nonnil (z : Z) :
  Z.to_int z <> Decimal.Pos Decimal.Nil /\ Z.to_int z <> Decimal.Neg Decimal.Nil.
Proof.
  destruct z as [| p | p]; simpl; split; try discriminate;
    intros H; injection H as H; exact (DecimalPos.Unsigned.to_uint_nonnil p H).
Qed.

(** Decimal rendering tells integers apart. *)
Lemma itoa_inj (z z' : Z) : Go.itoa z = Go.itoa z' -> z = z'.
Proof.
  unfold Go.itoa. intros H. apply DecimalZ.to_int_inj.
  destruct (to_int_nonnil z) as [Hp Hn], (to_int_nonnil z') as [Hp' Hn'].
  pose proof (NilZero.isi _ Hp Hn) as E.
  pose proof (NilZero.isi _ Hp' Hn') as E'.
  rewrite H in E. rewrite E in E'. injection E' as E'. exact E'.
Qed.

Lemma append_single_inj (a b : string) (c : ascii) :
  (a ++ String c EmptyString = b ++ String c EmptyString)%string -> a = b.
Proof.
  revert b. induction a as [| x a IH]; intros [| y b] H; simpl in H.
  - reflexivity.
  - injection H as _ H. destruct b; discriminate H.
  - injection H as _ H. destruct a; discriminate H.
  - injection H as -> H. f_equal. apply IH. exact H.
Qed.

(** The description of a code outside the enumeration. *)
Lemma String_unknown (r : fmsdk.FMReturn) :
  (forall e, r <> C.fmReturn_value e) ->
  fmsdk.String_ r = ("Unknown error (" ++ Go.itoa r ++ ")")%string.
Proof.
  intros H. unfold fmsdk.String_.
  repeat match goal with
         | |- context [r =? ?c] =>
             destruct (Z.eqb_spec r c) as [E | _];
             [exfalso; revert E;
              first [ apply (H C.FM_ST_SUCCESS) | apply (H C.FM_ST_BADPARAM)
                    | apply (H C.FM_ST_GENERIC_ERROR) | apply (H C.FM_ST_NOT_SUPPORTED)
                    | apply (H C.FM_ST_UNINITIALIZED) | apply (H C.FM_ST_TIMEOUT)
                    | apply (H C.FM_ST_VERSION_MISMATCH) | apply (H C.FM_ST_IN_USE)
                    | apply (H C.FM_ST_NOT_CONFIGURED)
                    | apply (H C.FM_ST_CONNECTION_NOT_VALID)
                    | apply (H C.FM_ST_NVLINK_ERROR) ] |]
         end.
  reflexivity.
Qed.

Lemma known_or_unknown (r : Z) :
  (exists e, r = C.fmReturn_value e) \/ (forall e, r <> C.fmReturn_value e).
Proof.
  destruct (Z_le_gt_dec (-10) r) as [Hlo |]; [| right; intros []; simpl; lia].
  destruct (Z_le_gt_dec r 0) as [Hhi |]; [| right; intros []; simpl; lia].
  left.
  assert (H : r = 0 \/ r = -1 \/ r = -2 \/ r = -3 \/ r = -4 \/ r = -5 \/ r = -6
              \/ r = -7 \/ r = -8 \/ r = -9 \/ r = -10) by lia.
  repeat destruct H as [-> | H]; try subst r;
    [ exists C.FM_ST_SUCCESS | exists C.FM_ST_BADPARAM | exists C.FM_ST_GENERIC_ERROR
    | exists C.FM_ST_NOT_SUPPORTED | exists C.FM_ST_UNINITIALIZED
    | exists C.FM_ST_TIMEOUT | exists C.FM_ST_VERSION_MISMATCH
    | exists C.FM_ST_IN_USE | exists C.FM_ST_NOT_CONFIGURED
    | exists C.FM_ST_CONNECTION_NOT_VALID | exists C.FM_ST_NVLINK_ERROR ];
    reflexivity.
Qed.

(** X1.  The description tells the codes apart: two return codes with the same
    description, inside the enumeration or outside it, are the same code. *)
Theorem String_injective (r r' : fmsdk.FMReturn) :
  fmsdk.String_ r = fmsdk.String_ r' -> r = r'.
Proof.
  intros H.
  destruct (known_or_unknown r) as [[e ->] | Hr],
           (known_or_unknown r') as [[e' ->] | Hr'].
  - destruct e, e'; try reflexivity; vm_compute in H; discriminate H.
  - rewrite (String_unknown r' Hr') in H.
    destruct e; vm_compute in H; discriminate H.
  - rewrite (String_unknown r Hr) in H.
    destruct e'; vm_compute in H; discriminate H.
  - rewrite (String_unknown r Hr), (String_unknown r' Hr') in H.
    simpl in H. injection H as H.
    apply itoa_inj. apply (append_single_inj _ _ ")"%char). exact H.
Qed.


(** ** What a decoded partition list looks like *)

Section DecodedList.

Import fmsdk.

Variable memory : Memory.

Lemma index_Ok_inv {T : Type} (n : Z) (zero : T) (a : list T) (i : Z) (x : T) :
  Go.index n zero a i = Go.Ok x ->
  0 <= i < n /\ x = nth (Z.to_nat i) a zero.
Proof.
  unfold Go.index. destruct ((0 <=? i) && (i <? n)) eqn:E; [| discriminate].
  intros H. injection H as <-. apply andb_true_iff in E. destruct E as [Hlo Hhi].
  apply Z.leb_le in Hlo. apply Z.ltb_lt in Hhi. auto.
Qed.

Lemma convert_gpu_inv partition j info :
  convert_gpu memory partition j = Go.Ok info ->
  0 <= j < C.FM_MAX_NUM_GPUS
  /\ PhysicalID info = CInt.uint (C.physicalId (gpu_at partition j))
  /\ Go.GoString (from_uuid memory (gpu_at partition j)) = Go.Ok (UUID info)
  /\ Go.GoString (from_pciBusId memory (gpu_at partition j)) = Go.Ok (PCIBusID info)
  /\ NumNvLinksAvailable info
     = CInt.uint (C.numNvLinksAvailable (gpu_at partition j))
  /\ MaxNumNvLinks info = CInt.uint (C.maxNumNvLinks (gpu_at partition j))
  /\ NvlinkLineRateMBps info
     = CInt.uint (C.nvlinkLineRateMBps (gpu_at partition j)).
Proof.
  unfold convert_gpu. intros H.
  destruct (Go.index _ _ _ j) as [gpu | | |] eqn:Ei; simpl in H; try discriminate.
  apply index_Ok_inv in Ei. destruct Ei as [Hj ->]. fold (gpu_at partition j) in H.
  destruct (Go.GoString (from_uuid _ _)) as [u | | |]; simpl in H; try discriminate.
  destruct (Go.GoString (from_pciBusId _ _)) as [b | | |]; simpl in H;
    try discriminate.
  injection H as <-. simpl. auto 10.
Qed.

Lemma convert_partition_gpus partitionList i p :
  convert_partition memory partitionList i = Go.Ok p ->
  IsActive p = negb (CInt.uint (C.isActive (partition_at partitionList i)) =? 0)
  /\ Go.for_range (CInt.uint (C.numGpus (partition_at partitionList i)))
       (convert_gpu memory (partition_at partitionList i))
     = Go.Ok (GPUInfo p).
Proof.
  unfold convert_partition. intros H.
  destruct (Go.index _ _ _ i) as [partition | | |] eqn:Ei; simpl in H;
    try discriminate.
  apply index_Ok_inv in Ei. destruct Ei as [Hi ->].
  fold (partition_at partitionList i) in H.
  destruct (Go.for_range _ _) as [gpus | | |]; simpl in H; try discriminate.
  injection H as <-. simpl. auto.
Qed.

(** X2.  The decode keeps the daemon's order and values: entry [i] of the result
    is partition [i] of the response, and GPU [j] of that entry is GPU [j] of
    that partition, field by field. *)
Theorem convert_list_entries
  (partitionList : C.fmFabricPartitionList_v2) (result : list FMPartitionInfo)
  (i : nat) (p : FMPartitionInfo) :
  convert_list memory partitionList = Go.Ok result ->
  nth_error result i = Some p ->
  PartitionID p
  = CInt.uint (C.partitionId (partition_at partitionList (Z.of_nat i)))
  /\ IsActive p
     = negb (CInt.uint (C.isActive (partition_at partitionList (Z.of_nat i))) =? 0)
  /\ NumGpus p = CInt.uint (C.numGpus (partition_at partitionList (Z.of_nat i)))
  /\ forall j g, nth_error (GPUInfo p) j = Some g ->
       let gpu := gpu_at (partition_at partitionList (Z.of_nat i)) (Z.of_nat j) in
       PhysicalID g = CInt.uint (C.physicalId gpu)
       /\ Go.GoString (from_uuid memory gpu) = Go.Ok (UUID g)
       /\ Go.GoString (from_pciBusId memory gpu) = Go.Ok (PCIBusID g)
       /\ NumNvLinksAvailable g = CInt.uint (C.numNvLinksAvailable gpu)
       /\ MaxNumNvLinks g = CInt.uint (C.maxNumNvLinks gpu)
       /\ NvlinkLineRateMBps g = CInt.uint (C.nvlinkLineRateMBps gpu).
Proof.
  intros Hres Hp. unfold convert_list in Hres.
  apply for_range_Ok_inv in Hres; [| apply uint_range].
  destruct Hres as [_ Hnth]. specialize (Hnth _ _ Hp).
  pose proof (convert_partition_inv memory _ _ _ Hnth) as (_ & Hid & Hnum & _).
  pose proof (convert_partition_gpus _ _ _ Hnth) as [Hact Hgpus].
  repeat split; try assumption.
  all: apply for_range_Ok_inv in Hgpus; [| apply uint_range];
    destruct Hgpus as [_ Hg]; specialize (Hg _ _ H);
    apply convert_gpu_inv in Hg; tauto.
Qed.

(** X3.  Whatever the daemon answers, a list that [FMGetSupportedFabricPartitions]
    returns has at most 64 partitions, each with at most 16 GPU entries, as
    many as its [NumGpus] says; with a return code other than success the
    list is empty. *)
Theorem FMGetSupportedFabricPartitions_bounds
  (native : Native) (handle : FMHandle) (tr : list Event)
  (result : list FMPartitionInfo) (r : FMReturn) :
  fst (FMGetSupportedFabricPartitions native memory handle tr)
  = Go.Ok (result, r) ->
  Z.of_nat (List.length result) <= C.FM_MAX_FABRIC_PARTITIONS
  /\ (forall p, In p result ->
        Z.of_nat (List.length (GPUInfo p)) = NumGpus p
        /\ 0 <= NumGpus p <= C.FM_MAX_NUM_GPUS)
  /\ (r <> FM_ST_SUCCESS -> result = []).
Proof.
  intros H.
  destruct (fmGetSupportedFabricPartitions native tr handle list_request)
    as [r0 partitionList] eqn:Hcall.
  destruct (Z.eq_dec (FMReturn_of_C r0) FM_ST_SUCCESS) as [Hr | Hr].
  - rewrite (FMGetSupportedFabricPartitions_success memory native handle tr r0
               partitionList Hcall Hr) in H.
    simpl in H.
    destruct (convert_list memory partitionList) as [res | | |] eqn:Hres;
      simpl in H; try discriminate.
    injection H as <- <-.
    assert (Hnth : forall i p, nth_error res i = Some p ->
              convert_partition memory partitionList (Z.of_nat i) = Go.Ok p).
    { unfold convert_list in Hres.
      apply for_range_Ok_inv in Hres; [| apply uint_range]. apply Hres. }
    split; [| split].
    + destruct res as [| p0 res']; [simpl; unfold C.FM_MAX_FABRIC_PARTITIONS; lia |].
      destruct (nth_error (p0 :: res') (List.length res')) as [p |] eqn:Hp.
      * apply Hnth in Hp. apply convert_partition_inv in Hp.
        simpl List.length. lia.
      * apply nth_error_None in Hp. simpl in Hp. lia.
    + intros p Hin. apply In_nth_error in Hin. destruct Hin as [i Hi].
      pose proof (Hnth _ _ Hi) as Hp.
      pose proof (convert_partition_inv memory _ _ _ Hp) as (_ & _ & Hnum & Hlen).
      split; [exact Hlen |].
      rewrite Hnum. split; [apply uint_range |].
      destruct (Z_le_gt_dec
                  (CInt.uint (C.numGpus (partition_at partitionList (Z.of_nat i))))
                  C.FM_MAX_NUM_GPUS) as [Hle | Hgt]; [exact Hle |].
      pose proof (convert_partition_too_many_gpus memory partitionList
                    (Z.of_nat i)) as Hbad.
      rewrite Hp in Hbad. simpl in Hbad. discriminate Hbad. lia.
    + intros Hne. contradiction.
  - rewrite (FMGetSupportedFabricPartitions_failure memory native handle tr r0
               partitionList Hcall Hr) in H.
    simpl in H. injection H as <- <-.
    split; [simpl; unfold C.FM_MAX_FABRIC_PARTITIONS; lia |].
    split; [intros p [] | reflexivity].
Qed.

End DecodedList.


(** ** The table of the [list] command *)

Lemma fold_totalNvLinks (gpus : list fmsdk.FMFabricPartitionGpuInfo) : forall acc,
  0 <= acc < 2 ^ 32 ->
  fold_left (fun total gpu => CInt.uint (total + fmsdk.NumNvLinksAvailable gpu))
    gpus acc
  = CInt.uint (acc + fold_right Z.add 0 (map fmsdk.NumNvLinksAvailable gpus)).
Proof.
  induction gpus as [| gpu gpus IH]; intros acc Hacc; simpl.
  - rewrite Z.add_0_r. symmetry. apply uint_small. exact Hacc.
  - rewrite IH by apply uint_range.
    unfold CInt.uint. rewrite Zplus_mod_idemp_l. f_equal. lia.
Qed.

(** X21.  The NVLINKS column of a partition is the sum of the available links of
    its GPUs, modulo [2^32]. *)
Theorem totalNvLinks_sum (p : fmsdk.FMPartitionInfo) :
  Output.totalNvLinks p
  = fold_right Z.add 0 (map fmsdk.NumNvLinksAvailable (fmsdk.GPUInfo p))
    mod 2 ^ 32.
Proof.
  unfold Output.totalNvLinks. rewrite fold_totalNvLinks by lia. reflexivity.
Qed.

(** ** Identifier strings of a GPU entry *)

Lemma buffer_length (n : nat) (written : list ascii) :
  List.length (Go.buffer n written) = n.
Proof.
  unfold Go.buffer. rewrite length_firstn, length_app, repeat_length. lia.
Qed.

(** X4.  For a GPU entry whose UUID and PCI bus identifier buffers each hold a
    null, the decoded strings are the bytes in front of the first null of
    their own buffer: at most 79 and 31 bytes, whatever the other fields
    hold. *)
Theorem convert_gpu_terminated
  (memory : fmsdk.Memory) (partition : C.fmFabricPartitionInfo_t) (j : Z)
  (info : fmsdk.FMFabricPartitionGpuInfo) :
  fmsdk.convert_gpu memory partition j = Go.Ok info ->
  In zero (Go.buffer 80 (C.uuid (gpu_at partition j))) ->
  In zero (Go.buffer 32 (C.pciBusId (gpu_at partition j))) ->
  fmsdk.UUID info
  = StringSpec.decode_bounded_string (Go.buffer 80 (C.uuid (gpu_at partition j)))
  /\ fmsdk.PCIBusID info
     = StringSpec.decode_bounded_string
         (Go.buffer 32 (C.pciBusId (gpu_at partition j)))
  /\ (String.length (fmsdk.UUID info) < 80)%nat
  /\ (String.length (fmsdk.PCIBusID info) < 32)%nat.
Proof.
  intros H Hu Hb.
  destruct (convert_gpu_inv memory partition j info H)
    as (_ & _ & Huuid & Hpci & _).
  unfold fmsdk.from_uuid in Huuid. unfold fmsdk.from_pciBusId in Hpci.
  change (Z.to_nat C.FM_UUID_BUFFER_SIZE) with 80%nat in Huuid.
  change (Z.to_nat C.FM_DEVICE_PCI_BUS_ID_BUFFER_SIZE) with 32%nat in Hpci.
  rewrite (GoString_app _ _ Hu) in Huuid. rewrite (GoString_app _ _ Hb) in Hpci.
  injection Huuid as Huuid. injection Hpci as Hpci.
  rewrite <- Huuid, <- Hpci.
  pose proof (decode_bounded_string_length _ Hu) as Lu.
  pose proof (decode_bounded_string_length _ Hb) as Lb.
  rewrite buffer_length in Lu, Lb. auto.
Qed.

(** The row of the README's first partition. *)
Example list_row_sample :
  Output.list_row
    {| fmsdk.PartitionID := 3; fmsdk.IsActive := false; fmsdk.NumGpus := 2;
       fmsdk.GPUInfo :=
         [ {| fmsdk.PhysicalID := 1; fmsdk.UUID := EmptyString;
              fmsdk.PCIBusID := EmptyString; fmsdk.NumNvLinksAvailable := 18;
              fmsdk.MaxNumNvLinks := 18; fmsdk.NvlinkLineRateMBps := 25000 |};
           {| fmsdk.PhysicalID := 3; fmsdk.UUID := EmptyString;
              fmsdk.PCIBusID := EmptyString; fmsdk.NumNvLinksAvailable := 18;
              fmsdk.MaxNumNvLinks := 18; fmsdk.NvlinkLineRateMBps := 25000 |} ] |}
  = ("3" ++ Output.tab ++ "Inactive" ++ Output.tab ++ "2" ++ Output.tab ++ "36"
     ++ Output.tab ++ "1,3" ++ fmctl.nl)%string.
Proof. reflexivity. Qed.


(** ** The address buffer of a connect request *)

Section AddressBuffer.

Import fmsdk.

Variable memory : Memory.

Lemma copy_full {T : Type} (dst src : list T) :
  List.length src = List.length dst -> Go.copy dst src = src.
Proof.
  intros H. unfold Go.copy. rewrite <- H, firstn_all, skipn_all2 by lia.
  apply List.app_nil_r.
Qed.

Lemma read_array_Ok (n : nat) (mem : list ascii) :
  (n <= List.length mem)%nat -> Go.read_array n mem = Go.Ok (firstn n mem).
Proof.
  intros H. unfold Go.read_array.
  apply Nat.leb_le in H. rewrite H. reflexivity.
Qed.

Lemma read_array_Fault (n : nat) (mem : list ascii) :
  (List.length mem < n)%nat -> Go.read_array n mem = Go.Fault.
Proof.
  intros H. unfold Go.read_array.
  apply Nat.leb_gt in H. rewrite H. reflexivity.
Qed.

(** The buffer of a request is the first 256 bytes found at the C string. *)
Lemma connect_request_addressInfo params cParams :
  connect_request memory params = Go.Ok cParams ->
  C.addressInfo cParams
  = firstn 256 (Go.CString (AddressInfo params) ++ after_cstring memory)
  /\ (256 <= List.length (Go.CString (AddressInfo params) ++ after_cstring memory))%nat.
Proof.
  unfold connect_request. intros H.
  destruct (Nat.le_gt_cases 256
              (List.length (Go.CString (AddressInfo params) ++ after_cstring memory)))
    as [Hle | Hgt].
  - rewrite (read_array_Ok _ _ Hle) in H. unfold Go.bind in H.
    injection H as <-. cbn [C.addressInfo]. split; [| exact Hle].
    apply copy_full. rewrite length_firstn, (Nat.min_l _ _ Hle). reflexivity.
  - rewrite (read_array_Fault _ _ Hgt) in H. discriminate H.
Qed.

Lemma CString_length (s : string) :
  List.length (Go.CString s) = S (String.length s).
Proof.
  unfold Go.CString. rewrite length_app. simpl.
  assert (H : List.length (list_ascii_of_string s) = String.length s).
  { induction s as [| c s IH]; simpl; [reflexivity | rewrite IH; reflexivity]. }
  rewrite H. lia.
Qed.

Lemma list_ascii_length (s : string) :
  List.length (list_ascii_of_string s) = String.length s.
Proof. induction s as [| c s IH]; simpl; [reflexivity | rewrite IH; reflexivity]. Qed.

Lemma firstn_CString_short (s : string) (after : list ascii) :
  (String.length s < 256)%nat ->
  firstn 256 (Go.CString s ++ after)
  = list_ascii_of_string s ++ zero :: firstn (255 - String.length s) after.
Proof.
  intros H. unfold Go.CString. rewrite <- app_assoc, firstn_app.
  rewrite list_ascii_length.
  rewrite firstn_all2 by (rewrite list_ascii_length; lia).
  f_equal.
  replace (256 - String.length s)%nat with (S (255 - String.length s)) by lia.
  cbn [app]. apply firstn_cons.
Qed.

(** X5.  For an address shorter than the buffer, the request holds the address,
    its terminating null, and then, for the rest of the 256 bytes, the bytes
    that follow the C string's allocation in memory. *)
Theorem connect_request_short_address params cParams :
  (String.length (AddressInfo params) < 256)%nat ->
  connect_request memory params = Go.Ok cParams ->
  C.addressInfo cParams
  = list_ascii_of_string (AddressInfo params) ++ zero
    :: firstn (255 - String.length (AddressInfo params)) (after_cstring memory)
  /\ List.length (C.addressInfo cParams) = 256%nat.
Proof.
  intros Hshort H.
  destruct (connect_request_addressInfo params cParams H) as [E Hlen].
  rewrite E. split.
  - apply firstn_CString_short. exact Hshort.
  - rewrite length_firstn. lia.
Qed.

(** X6.  An address of 256 bytes or more is cut to its first 256 bytes: the
    request holds no terminating null unless the address itself has one. *)
Theorem connect_request_truncates params cParams :
  (256 <= String.length (AddressInfo params))%nat ->
  connect_request memory params = Go.Ok cParams ->
  C.addressInfo cParams = firstn 256 (list_ascii_of_string (AddressInfo params))
  /\ (~ In zero (list_ascii_of_string (AddressInfo params)) ->
      ~ In zero (C.addressInfo cParams)).
Proof.
  intros Hlong H.
  destruct (connect_request_addressInfo params cParams H) as [E _].
  assert (E' : C.addressInfo cParams
               = firstn 256 (list_ascii_of_string (AddressInfo params))).
  { rewrite E. unfold Go.CString. rewrite <- app_assoc, firstn_app.
    rewrite list_ascii_length.
    replace (256 - String.length (AddressInfo params))%nat with 0%nat by lia.
    simpl. apply app_nil_r. }
  split; [exact E' |].
  intros Hno Hin. apply Hno. rewrite E' in Hin.
  rewrite <- (firstn_skipn 256 (list_ascii_of_string (AddressInfo params))).
  apply in_or_app. left. exact Hin.
Qed.

(** X7.  When fewer than 256 bytes are mapped from the C string on, the copy
    faults: [FMConnect] ends there, and no native call is made. *)
Theorem FMConnect_faults native params tr :
  (S (String.length (AddressInfo params)) + List.length (after_cstring memory)
   < 256)%nat ->
  FMConnect native memory params tr = (Go.Fault, tr).
Proof.
  intros H. unfold FMConnect, bind, lift, connect_request.
  rewrite read_array_Fault; [reflexivity |].
  rewrite length_app, CString_length. exact H.
Qed.

Lemma decode_bounded_string_app (s : string) (rest : list ascii) :
  ~ In zero (list_ascii_of_string s) ->
  StringSpec.decode_bounded_string (list_ascii_of_string s ++ zero :: rest) = s.
Proof.
  induction s as [| c s IH]; intros Hno; simpl.
  - reflexivity.
  - destruct (Ascii.eqb c zero) eqn:E.
    + apply Ascii.eqb_eq in E. subst c. exfalso. apply Hno. left. reflexivity.
    + f_equal. apply IH. intros Hin. apply Hno. right. exact Hin.
Qed.

(** X8.  The address makes the round trip through the buffer: for an address of
    fewer than 256 bytes, none of them null, reading the buffer as a C string
    gives the address back. *)
Theorem connect_request_round_trip params cParams (rest : list ascii) :
  (String.length (AddressInfo params) < 256)%nat ->
  ~ In zero (list_ascii_of_string (AddressInfo params)) ->
  connect_request memory params = Go.Ok cParams ->
  Go.GoString (C.addressInfo cParams ++ rest) = Go.Ok (AddressInfo params).
Proof.
  intros Hshort Hno H.
  destruct (connect_request_addressInfo params cParams H) as [E Hlen].
  assert (E' : C.addressInfo cParams
               = list_ascii_of_string (AddressInfo params) ++ zero
                 :: firstn (255 - String.length (AddressInfo params))
                      (after_cstring memory)).
  { rewrite E. apply firstn_CString_short. exact Hshort. }
  rewrite GoString_app.
  - rewrite E'. f_equal. apply decode_bounded_string_app. exact Hno.
  - rewrite E'. apply in_or_app. right. left. reflexivity.
Qed.

End AddressBuffer.

(** The request that [FMConnect] builds when 256 bytes can be read at the C
    string: a function of the address, the timeout and the socket flag. *)
Lemma connect_request_value memory params :
  (256 <= List.length (Go.CString (fmsdk.AddressInfo params)
                       ++ fmsdk.after_cstring memory))%nat ->
  fmsdk.connect_request memory params
  = Go.Ok {| C.version := 16777484;
             C.addressInfo :=
               firstn 256 (Go.CString (fmsdk.AddressInfo params)
                           ++ fmsdk.after_cstring memory);
             C.timeoutMs := CInt.uint (fmsdk.TimeoutMs params);
             C.addressIsUnixSocket :=
               if fmsdk.AddressIsUnixSocket params then 1 else 0 |}.
Proof.
  intros Hlen. unfold fmsdk.connect_request.
  rewrite (read_array_Ok _ _ Hlen). unfold Go.bind.
  rewrite copy_full; [reflexivity |].
  rewrite length_firstn, (Nat.min_l _ _ Hlen). reflexivity.
Qed.

(** C10.  [FMConnect] does not read the [Version] field of its argument: two
    arguments that agree on the other three fields give the same result and
    the same trace.  When 256 bytes can be read at the C string, the one
    native call gets a request whose fields are functions of the address,
    the timeout and the socket flag alone, and whose version tag is the
    macro-derived constant [sizeof(fmConnectParams_v1) | (1 << 24)], that is
    16777484; when they cannot, the copy faults for both arguments. *)
Theorem FMConnect_ignores_Version
  (native : fmsdk.Native) (memory : fmsdk.Memory)
  (p q : fmsdk.FMConnectParams) (tr : list fmsdk.Event) :
  fmsdk.AddressInfo p = fmsdk.AddressInfo q ->
  fmsdk.TimeoutMs p = fmsdk.TimeoutMs q ->
  fmsdk.AddressIsUnixSocket p = fmsdk.AddressIsUnixSocket q ->
  fmsdk.connect_request memory p = fmsdk.connect_request memory q
  /\ fmsdk.FMConnect native memory p tr = fmsdk.FMConnect native memory q tr
  /\ (forall cParams,
         fmsdk.connect_request memory p = Go.Ok cParams ->
         C.version cParams
         = C.MAKE_FM_PARAM_VERSION C.sizeof_fmConnectParams_v1 1)
  /\ C.MAKE_FM_PARAM_VERSION C.sizeof_fmConnectParams_v1 1
     = Z.lor C.sizeof_fmConnectParams_v1 (Z.shiftl 1 24)
  /\ Z.lor C.sizeof_fmConnectParams_v1 (Z.shiftl 1 24) = 16777484
  /\ ((256 <= List.length (Go.CString (fmsdk.AddressInfo p)
                           ++ fmsdk.after_cstring memory))%nat ->
      let cParams :=
        {| C.version := Z.lor C.sizeof_fmConnectParams_v1 (Z.shiftl 1 24);
           C.addressInfo :=
             firstn 256 (Go.CString (fmsdk.AddressInfo q)
                         ++ fmsdk.after_cstring memory);
           C.timeoutMs := CInt.uint (fmsdk.TimeoutMs q);
           C.addressIsUnixSocket :=
             if fmsdk.AddressIsUnixSocket q then 1 else 0 |} in
      fmsdk.FMConnect native memory p tr
      = (Go.Ok (snd (fmsdk.fmConnect native tr cParams),
                fmsdk.FMReturn_of_C (fst (fmsdk.fmConnect native tr cParams))),
         tr ++ [fmsdk.EvConnect cParams]))
  /\ ((List.length (Go.CString (fmsdk.AddressInfo p)
                    ++ fmsdk.after_cstring memory) < 256)%nat ->
      fmsdk.FMConnect native memory p tr = (Go.Fault, tr)).
Proof.
  intros Haddr Htime Hsock.
  assert (E : fmsdk.connect_request memory p = fmsdk.connect_request memory q).
  { unfold fmsdk.connect_request. rewrite Haddr, Htime, Hsock. reflexivity. }
  split; [exact E |].
  split; [unfold fmsdk.FMConnect; rewrite E; reflexivity |].
  split; [intros cParams H; apply (connect_request_version _ _ _ H) |].
  split; [reflexivity |].
  split; [reflexivity |].
  split.
  - intros Hlen. cbv zeta. apply FMConnect_call.
    rewrite (connect_request_value memory p Hlen), Haddr, Htime, Hsock.
    reflexivity.
  - intros Hlen. unfold fmsdk.FMConnect, fmsdk.bind, fmsdk.lift,
      fmsdk.connect_request.
    rewrite (read_array_Fault _ _ Hlen). reflexivity.
Qed.

Lemma FMConnect_ignores_Version_witness :
  fmsdk.FMConnect (Scenario.daemon (0, 4096) (0, Scenario.empty_list 0) 0)
    Scenario.memory (Scenario.params Scenario.default_address 1) []
  = fmsdk.FMConnect (Scenario.daemon (0, 4096) (0, Scenario.empty_list 0) 0)
      Scenario.memory (Scenario.params Scenario.default_address 99) []
  /\ fmsdk.FMConnect (Scenario.daemon (0, 4096) (0, Scenario.empty_list 0) 0)
       Scenario.memory (Scenario.params Scenario.default_address 1) []
     = (Go.Ok (4096, 0), [fmsdk.EvConnect Scenario.default_request]).
Proof.
  destruct (FMConnect_ignores_Version
              (Scenario.daemon (0, 4096) (0, Scenario.empty_list 0) 0)
              Scenario.memory
              (Scenario.params Scenario.default_address 1)
              (Scenario.params Scenario.default_address 99) [])
    as (_ & Hsame & _ & _ & _ & Hcall & _); try reflexivity.
  split; [exact Hsame |].
  rewrite Hcall; [vm_compute; reflexivity |].
  apply Nat.leb_le. reflexivity.
Defined.


(** ** The connection parameters of the driver *)

Lemma substring_0_length (s : string) : substring 0 (String.length s) s = s.
Proof. induction s as [| c s IH]; simpl; [reflexivity | rewrite IH; reflexivity]. Qed.

Lemma substring_skip (p s : string) (m : nat) :
  substring (String.length p) m (p ++ s) = substring 0 m s.
Proof. induction p as [| c p IH]; simpl; [reflexivity | exact IH]. Qed.

Lemma append_length (a b : string) :
  String.length (a ++ b) = (String.length a + String.length b)%nat.
Proof. induction a as [| c a IH]; simpl; [reflexivity | rewrite IH; reflexivity]. Qed.

Lemma substring_split (s : string) (n : nat) :
  (n <= String.length s)%nat ->
  s = (substring 0 n s ++ substring n (String.length s - n) s)%string.
Proof.
  revert n. induction s as [| c s IH]; intros n Hn.
  - destruct n; reflexivity.
  - destruct n as [| n].
    + simpl. rewrite substring_0_length. reflexivity.
    + simpl. f_equal. apply IH. simpl in Hn. lia.
Qed.

(** [Go.HasSuffix] holds exactly of the strings that end with the suffix. *)
Lemma HasSuffix_spec (s suffix : string) :
  Go.HasSuffix s suffix = true <-> exists p, s = (p ++ suffix)%string.
Proof.
  unfold Go.HasSuffix. split.
  - intros H. apply andb_true_iff in H. destruct H as [Hlen Heq].
    apply Nat.leb_le in Hlen. apply String.eqb_eq in Heq.
    exists (substring 0 (String.length s - String.length suffix) s).
    etransitivity;
      [apply (substring_split s (String.length s - String.length suffix)); lia |].
    f_equal.
    replace (String.length s - (String.length s - String.length suffix))%nat
      with (String.length suffix) by lia.
    exact Heq.
  - intros [p ->]. rewrite append_length. apply andb_true_iff. split.
    + apply Nat.leb_le. lia.
    + apply String.eqb_eq.
      replace (String.length p + String.length suffix - String.length suffix)%nat
        with (String.length p) by lia.
      rewrite substring_skip. apply substring_0_length.
Qed.

(** X9.  [connectToFM] asks for the address of the flags; the timeout it passes is
    the flag's value modulo [2^32], and the socket flag is 1 exactly when the
    address ends in ".sock" (0 otherwise). *)
Theorem connectToFM_request
  (native : fmsdk.Native) (memory : fmsdk.Memory) (flags : fmctl.Flags)
  (tr : list fmsdk.Event) (handle : fmsdk.FMHandle) (r : fmsdk.FMReturn) :
  fst (fmctl.connectToFM native memory flags tr) = Go.Ok (handle, r) ->
  exists cParams,
    snd (fmctl.connectToFM native memory flags tr)
    = tr ++ [fmsdk.EvConnect cParams]
    /\ C.addressInfo cParams
       = firstn 256 (Go.CString (fmctl.address flags)
                     ++ fmsdk.after_cstring memory)
    /\ C.timeoutMs cParams = fmctl.timeout flags mod 2 ^ 32
    /\ (C.addressIsUnixSocket cParams = 1
        <-> exists p, fmctl.address flags = (p ++ ".sock")%string)
    /\ (C.addressIsUnixSocket cParams = 0 \/ C.addressIsUnixSocket cParams = 1).
Proof.
  unfold fmctl.connectToFM.
  match goal with
  | |- context [fmsdk.FMConnect native memory ?p tr] => set (params := p)
  end.
  intros H.
  destruct (fmsdk.FMConnect native memory params tr) as [o tr'] eqn:E.
  simpl in H. subst o.
  destruct (FMConnect_inv native memory params tr handle r tr' E)
    as (cParams & Hreq & _ & _ & Htr).
  exists cParams. split; [exact Htr |].
  split; [exact (proj1 (connect_request_addressInfo memory params cParams Hreq)) |].
  unfold fmsdk.connect_request in Hreq.
  destruct (Go.read_array _ _) as [src | | |]; try discriminate Hreq.
  unfold Go.bind in Hreq. injection Hreq as <-.
  cbn [C.timeoutMs C.addressIsUnixSocket fmsdk.TimeoutMs
       fmsdk.AddressIsUnixSocket params].
  split; [| split].
  - unfold CInt.uint. apply Zmod_mod.
  - rewrite <- HasSuffix_spec.
    destruct (Go.HasSuffix (fmctl.address flags) ".sock"); split; intros H;
      try reflexivity; discriminate H.
  - destruct (Go.HasSuffix (fmctl.address flags) ".sock"); auto.
Qed.


(** ** The partition-id argument *)

Lemma digit_Some (c : ascii) (d : Z) :
  fmctl.digit c = Some d ->
  Events.is_digit c /\ d = Z.of_nat (nat_of_ascii c) - 48 /\ 0 <= d <= 9.
Proof.
  unfold fmctl.digit, Events.is_digit.
  destruct ((48 <=? _) && (_ <=? 57)) eqn:E; [| discriminate].
  intros H. injection H as <-. apply andb_true_iff in E. destruct E as [Hlo Hhi].
  apply Z.leb_le in Hlo. apply Z.leb_le in Hhi. lia.
Qed.

Lemma digit_None (c : ascii) : fmctl.digit c = None -> ~ Events.is_digit c.
Proof.
  unfold fmctl.digit, Events.is_digit.
  destruct ((48 <=? _) && (_ <=? 57)) eqn:E; [discriminate |].
  intros _ H. apply andb_false_iff in E.
  destruct E as [E | E]; [apply Z.leb_gt in E | apply Z.leb_gt in E]; lia.
Qed.

Lemma digit_is_digit (c : ascii) :
  Events.is_digit c -> fmctl.digit c = Some (Z.of_nat (nat_of_ascii c) - 48).
Proof.
  intros H. destruct (fmctl.digit c) as [d |] eqn:E.
  - apply digit_Some in E. destruct E as (_ & -> & _). reflexivity.
  - apply digit_None in E. contradiction.
Qed.

(** One round of the loop of [ParseUint], for an accumulator that fits in 32
    bits. *)
Lemma parse_digits_step (c : ascii) (rest : list ascii) (acc : Z) :
  0 <= acc <= fmctl.maxVal ->
  Events.is_digit c ->
  fmctl.parse_digits (c :: rest) acc
  = if Events.decimal_step acc c >? fmctl.maxVal then inl fmctl.ErrRange
    else fmctl.parse_digits rest (Events.decimal_step acc c).
Proof.
  intros Hacc Hc. simpl. rewrite (digit_is_digit c Hc).
  unfold Events.is_digit in Hc. unfold fmctl.maxVal in Hacc.
  assert (Hcut : (acc >=? fmctl.cutoff) = false).
  { unfold fmctl.cutoff, fmctl.maxUint64.
    destruct (Z.geb_spec acc ((2 ^ 64 - 1) / 10 + 1)) as [H |]; [| reflexivity].
    change ((2 ^ 64 - 1) / 10 + 1) with 1844674407370955162 in H. lia. }
  rewrite Hcut.
  assert (E10 : CInt.size_t (acc * 10) = acc * 10).
  { unfold CInt.size_t. apply Z.mod_small. lia. }
  rewrite E10.
  assert (E1 : CInt.size_t (acc * 10 + (Z.of_nat (nat_of_ascii c) - 48))
               = Events.decimal_step acc c).
  { unfold CInt.size_t, Events.decimal_step. rewrite Z.mod_small; lia. }
  rewrite E1.
  assert (Hlt : (Events.decimal_step acc c <? acc * 10) = false).
  { apply Z.ltb_ge. unfold Events.decimal_step. lia. }
  rewrite Hlt. reflexivity.
Qed.

Lemma fold_decimal_step_le (cs : list ascii) : forall acc,
  0 <= acc -> Forall Events.is_digit cs ->
  acc <= fold_left Events.decimal_step cs acc.
Proof.
  induction cs as [| c cs IH]; intros acc Hacc Hcs; simpl; [lia |].
  inversion Hcs as [| ? ? Hc Hrest]; subst.
  unfold Events.is_digit in Hc.
  assert (Hstep : acc <= Events.decimal_step acc c) by (unfold Events.decimal_step; lia).
  specialize (IH (Events.decimal_step acc c) ltac:(lia) Hrest). simpl in IH. lia.
Qed.

Lemma decimal_value_nonneg (s : string) :
  Forall Events.is_digit (list_ascii_of_string s) -> 0 <= Events.decimal_value s.
Proof.
  intros H. unfold Events.decimal_value.
  apply (fold_decimal_step_le _ 0); [lia | exact H].
Qed.

Lemma parse_digits_sound (cs : list ascii) : forall acc n,
  0 <= acc <= fmctl.maxVal ->
  fmctl.parse_digits cs acc = inr n ->
  Forall Events.is_digit cs
  /\ n = fold_left Events.decimal_step cs acc
  /\ 0 <= n <= fmctl.maxVal.
Proof.
  induction cs as [| c cs IH]; intros acc n Hacc H.
  - simpl in H. injection H as <-. auto.
  - destruct (fmctl.digit c) as [d |] eqn:Ed.
    + pose proof (digit_Some c d Ed) as (Hc & _ & _).
      rewrite (parse_digits_step c cs acc Hacc Hc) in H.
      destruct (Z.gtb_spec (Events.decimal_step acc c) fmctl.maxVal) as [| Hle];
        [discriminate H |].
      assert (Hacc' : 0 <= Events.decimal_step acc c <= fmctl.maxVal).
      { unfold Events.is_digit in Hc. unfold Events.decimal_step in *. lia. }
      destruct (IH _ _ Hacc' H) as (Hcs & Hn & Hrange).
      split; [constructor; assumption |]. split; assumption.
    + simpl in H. rewrite Ed in H. discriminate H.
Qed.

Lemma parse_digits_complete (cs : list ascii) : forall acc,
  0 <= acc <= fmctl.maxVal ->
  Forall Events.is_digit cs ->
  fold_left Events.decimal_step cs acc <= fmctl.maxVal ->
  fmctl.parse_digits cs acc = inr (fold_left Events.decimal_step cs acc).
Proof.
  induction cs as [| c cs IH]; intros acc Hacc Hcs Hval.
  - reflexivity.
  - inversion Hcs as [| ? ? Hc Hrest]; subst.
    rewrite (parse_digits_step c cs acc Hacc Hc). simpl in Hval.
    assert (Hstep0 : 0 <= Events.decimal_step acc c).
    { unfold Events.is_digit in Hc. unfold Events.decimal_step. lia. }
    pose proof (fold_decimal_step_le cs (Events.decimal_step acc c) Hstep0 Hrest) as Hle.
    destruct (Z.gtb_spec (Events.decimal_step acc c) fmctl.maxVal) as [Hgt |]; [lia |].
    simpl. apply IH; [lia | exact Hrest | exact Hval].
Qed.

(** [ParseUint] accepts exactly the non-empty strings of decimal digits
    whose number is below [2^32], and gives that number. *)
Lemma ParseUint_spec (s : string) (n : Z) :
  fmctl.ParseUint s = inr n
  <-> s <> EmptyString
      /\ Forall Events.is_digit (list_ascii_of_string s)
      /\ Events.decimal_value s = n
      /\ n < 2 ^ 32.
Proof.
  assert (H0 : 0 <= 0 <= fmctl.maxVal) by (unfold fmctl.maxVal; lia).
  unfold fmctl.ParseUint, Events.decimal_value.
  split.
  - intros H. destruct s as [| c s]; [discriminate H |].
    destruct (parse_digits_sound _ _ _ H0 H) as (Hcs & Hn & Hrange).
    unfold fmctl.maxVal in Hrange.
    repeat split; try assumption; try lia; try discriminate.
  - intros (Hne & Hcs & Hn & Hlt).
    destruct s as [| c s]; [contradiction |].
    rewrite <- Hn. apply parse_digits_complete; try assumption.
    unfold fmctl.maxVal. rewrite Hn. lia.
Qed.

Section PartitionId.

Import fmsdk fmctl.

Variable flags : Flags.
Variable Quote : string -> string.

Lemma with_partition_id_valid
  (name : string) (cmd : Z -> M unit) (tr : list Event) :
  (2 <= List.length (args flags))%nat ->
  nth 1 (args flags) EmptyString <> EmptyString ->
  Forall Events.is_digit
    (list_ascii_of_string (nth 1 (args flags) EmptyString)) ->
  Events.decimal_value (nth 1 (args flags) EmptyString) < 2 ^ 32 ->
  with_partition_id flags Quote name cmd tr
  = cmd (Events.decimal_value (nth 1 (args flags) EmptyString)) tr.
Proof.
  intros Hlen Hne Hdigits Hval. unfold with_partition_id.
  apply Nat.ltb_ge in Hlen. rewrite Hlen.
  assert (Hparse : ParseUint (nth 1 (args flags) EmptyString)
                   = inr (Events.decimal_value (nth 1 (args flags) EmptyString))).
  { apply ParseUint_spec. auto. }
  rewrite Hparse. rewrite uint_small; [reflexivity |].
  split; [apply decimal_value_nonneg; exact Hdigits | exact Hval].
Qed.

(** X10.  The three commands that take a partition-id run only with an argument
    that is a non-empty string of decimal digits denoting a number below
    [2^32], and are handed exactly that number; with no such argument the
    process leaves with status 1 after one line on standard error, and the
    command is not run. *)
Theorem with_partition_id_argument
  (name : string) (cmd : Z -> M unit) (tr : list Event) :
  ((List.length (args flags) < 2)%nat ->
   exists text,
     with_partition_id flags Quote name cmd tr
     = (Go.Exit 1, tr ++ [EvStderr text]))
  /\ ((2 <= List.length (args flags))%nat ->
      nth 1 (args flags) EmptyString <> EmptyString ->
      Forall Events.is_digit
        (list_ascii_of_string (nth 1 (args flags) EmptyString)) ->
      Events.decimal_value (nth 1 (args flags) EmptyString) < 2 ^ 32 ->
      with_partition_id flags Quote name cmd tr
      = cmd (Events.decimal_value (nth 1 (args flags) EmptyString)) tr)
  /\ ((2 <= List.length (args flags))%nat ->
      ~ (nth 1 (args flags) EmptyString <> EmptyString
         /\ Forall Events.is_digit
              (list_ascii_of_string (nth 1 (args flags) EmptyString))
         /\ Events.decimal_value (nth 1 (args flags) EmptyString) < 2 ^ 32) ->
      exists text,
        with_partition_id flags Quote name cmd tr
        = (Go.Exit 1, tr ++ [EvStderr text])).
Proof.
  unfold with_partition_id. split; [| split].
  - intros Hlen. apply Nat.ltb_lt in Hlen. rewrite Hlen.
    eexists. reflexivity.
  - intros Hlen Hne Hdigits Hval. fold (with_partition_id flags Quote name cmd).
    apply with_partition_id_valid; assumption.
  - intros Hlen Hbad. apply Nat.ltb_ge in Hlen. rewrite Hlen.
    destruct (ParseUint (nth 1 (args flags) EmptyString)) as [err | n] eqn:Hparse.
    + eexists. reflexivity.
    + exfalso. apply Hbad. apply ParseUint_spec in Hparse.
      destruct Hparse as (Hne & Hd & Hv & Hlt). rewrite Hv. auto.
Qed.

End PartitionId.


(** ** The shape of a run of [main] *)

Ltac operations_step :=
  first
    [ apply appends_ret
    | apply appends_lift
    | apply appends_os_Exit
    | apply appends_call; first [reflexivity | exact I]
    | apply appends_stderr; exact I
    | apply appends_usage; exact I
    | apply appends_bind; [| intros ?]
    | match goal with
      | |- fmctl.appends _ (if ?c then _ else _) => destruct c
      | |- fmctl.appends _ (match ?x with _ => _ end) => destruct x
      end ].

Section Shape.

Import fmsdk fmctl.

Variable native : Native.
Variable memory : Memory.
Variable flags : Flags.
Variable Quote : string -> string.

(** The switch of [main] operates on the handle it is given, and on no
    other; it neither connects nor disconnects, and leaves the library's
    initialisation alone. *)
Lemma execute_operations command handle :
  appends (Events.operation_on handle)
    (execute native memory flags Quote command handle).
Proof.
  unfold execute, with_partition_id, cmdList, cmdStatus, cmdActivate,
    cmdDeactivate, FMGetSupportedFabricPartitions, FMActivateFabricPartition,
    FMDeactivateFabricPartition.
  repeat operations_step.
Qed.

Lemma session_shape command handle tr :
  exists evs,
    Forall (Events.operation_on handle) evs
    /\ snd (session native memory flags Quote command handle tr)
       = tr ++ evs
         ++ (if unwinds (fst (session native memory flags Quote command handle tr))
             then [EvDisconnect handle] else []).
Proof.
  destruct (execute_operations command handle tr) as (evs & E & HP).
  exists evs. split; [exact HP |].
  unfold session, defer_.
  destruct (execute native memory flags Quote command handle tr)
    as [[[] | msg | code |] tr'];
    simpl in E; subst tr'; unfold FMDisconnect, bind, call, ret; simpl;
    rewrite ?List.app_nil_r, <- ?app_assoc; reflexivity.
Qed.

Lemma connected_shape command tr :
  exists evs,
    snd (connected native memory flags Quote command tr) = tr ++ evs
    /\ Events.connected_run native tr (fst (connected native memory flags Quote command tr)) evs.
Proof.
  unfold connected, connectToFM, bind.
  match goal with |- context [FMConnect native memory ?p tr] => set (params := p) end.
  destruct (connect_request memory params) as [cParams | | |] eqn:E.
  - rewrite (FMConnect_call native memory params cParams tr E).
    destruct (FMReturn_of_C (fst (fmConnect native tr cParams)) =? FM_ST_SUCCESS)
      eqn:Hr; cbn [negb].
    + apply Z.eqb_eq in Hr.
      destruct (session_shape command (snd (fmConnect native tr cParams))
                  (tr ++ [EvConnect cParams])) as (evs & HP & Es).
      eexists. split.
      * rewrite Es, <- app_assoc. reflexivity.
      * apply Events.run_session; assumption.
    + apply Z.eqb_neq in Hr. unfold stderr, os_Exit. simpl.
      eexists. split.
      * rewrite <- app_assoc. reflexivity.
      * apply Events.run_refused; [exact Hr | reflexivity].
  - unfold connect_request, Go.read_array in E.
    destruct (256 <=? _)%nat; unfold Go.bind in E; discriminate E.
  - unfold connect_request, Go.read_array in E.
    destruct (256 <=? _)%nat; unfold Go.bind in E; discriminate E.
  - unfold FMConnect, bind, lift. rewrite E. simpl.
    exists []. rewrite List.app_nil_r. split; [reflexivity |].
    apply Events.run_fault. reflexivity.
Qed.

(** [main] with a command other than [info]: the initialisation, the
    warning when it fails and the flag asks for it, and the rest under the
    deferred shutdown. *)
Lemma main_command command rest :
  args flags = command :: rest ->
  command <> "info"%string ->
  exists init,
    (init = [EvLibInit] \/ exists text, init = [EvLibInit; EvStderr text])
    /\ main native memory flags Quote []
       = defer_ (FMLibShutdown native)
           (connected native memory flags Quote command) init.
Proof.
  intros Hargs Hinfo. unfold main. rewrite Hargs.
  cbn [List.length Nat.ltb Nat.leb nth].
  apply String.eqb_neq in Hinfo. rewrite Hinfo.
  unfold bind, FMLibInit, bind, call, ret, stderr.
  cbn [app].
  destruct (negb (FMReturn_of_C (fmLibInit native []) =? FM_ST_SUCCESS)
            && verbose flags).
  - eexists. split; [right; eexists; reflexivity | reflexivity].
  - eexists. split; [left; reflexivity | reflexivity].
Qed.

Lemma main_shape :
  Events.main_run native flags (fst (main native memory flags Quote []))
    (snd (main native memory flags Quote [])).
Proof.
  destruct (args flags) as [| command rest] eqn:Hargs.
  { unfold main. rewrite Hargs. simpl. apply Events.run_usage; [exact Hargs | reflexivity]. }
  destruct (String.eqb_spec command "info") as [Hinfo | Hinfo].
  { unfold main. rewrite Hargs. cbn [List.length Nat.ltb Nat.leb nth].
    apply String.eqb_eq in Hinfo. rewrite Hinfo. simpl.
    apply Events.run_info; [| reflexivity].
    rewrite Hargs. apply String.eqb_eq. exact Hinfo. }
  destruct (main_command command rest Hargs Hinfo) as (init & Hinit & ->).
  rewrite defer_FMLibShutdown_trace.
  destruct (connected_shape command init) as (evs & Es & Hrun).
  assert (Ho : fst (defer_ (FMLibShutdown native)
                      (connected native memory flags Quote command) init)
               = fst (connected native memory flags Quote command init)).
  { unfold defer_, FMLibShutdown, bind, call, ret.
    destruct (connected native memory flags Quote command init)
      as [[[] | msg | code |] tr']; reflexivity. }
  rewrite Ho, Es, <- app_assoc.
  apply Events.run_command; try assumption.
  - rewrite Hargs. discriminate.
  - rewrite Hargs. exact Hinfo.
Qed.

End Shape.


Section Runs.

Import fmsdk fmctl.

Variable native : Native.
Variable memory : Memory.
Variable flags : Flags.
Variable Quote : string -> string.

Lemma operation_on_handle h evs ev h' :
  Forall (Events.operation_on h) evs -> In ev evs -> Events.handle_of ev = Some h' ->
  h' = h.
Proof.
  intros HP Hin Hh. rewrite Forall_forall in HP. specialize (HP _ Hin).
  destruct ev; simpl in *; try discriminate Hh; try contradiction;
    injection Hh as <-; exact HP.
Qed.

Lemma operation_on_not_cleanup h evs :
  Forall (Events.operation_on h) evs ->
  ~ In EvLibShutdown evs /\ forall h', ~ In (EvDisconnect h') evs.
Proof.
  intros HP. rewrite Forall_forall in HP.
  split; [| intros h']; intros Hin; exact (HP _ Hin).
Qed.

Lemma init_no_handle init ev :
  (init = [EvLibInit] \/ exists text, init = [EvLibInit; EvStderr text]) ->
  In ev init -> Events.handle_of ev = None /\ ev <> EvLibShutdown.
Proof.
  intros [-> | [text ->]] Hin; simpl in Hin;
    repeat destruct Hin as [<- | Hin]; try contradiction;
    split; try reflexivity; discriminate.
Qed.

(** X14.  Every operation and every disconnect of a run of [main] is on the handle
    that a native connect, earlier in the run, has returned together with
    the success code. *)
Theorem main_handles (ev : Event) (h : FMHandle) :
  In ev (snd (main native memory flags Quote [])) ->
  Events.handle_of ev = Some h ->
  exists init cParams rest,
    snd (main native memory flags Quote []) = init ++ EvConnect cParams :: rest
    /\ In ev rest
    /\ h = snd (fmConnect native init cParams)
    /\ FMReturn_of_C (fst (fmConnect native init cParams)) = FM_ST_SUCCESS.
Proof.
  intros Hin Hh.
  destruct (main_shape native memory flags Quote)
    as [_ _ | _ _ | init evs _ _ Hinit Hrun].
  - destruct Hin as [<- | []]. discriminate Hh.
  - destruct Hin.
  - apply in_app_or in Hin. destruct Hin as [Hin | Hin].
    { destruct (init_no_handle init ev Hinit Hin) as [Hnone _].
      rewrite Hnone in Hh. discriminate Hh. }
    destruct Hrun as [_ | cParams text _ _ | cParams evs Hr HP].
    + destruct (unwinds _); simpl in Hin;
        repeat destruct Hin as [<- | Hin]; try contradiction; discriminate Hh.
    + destruct (unwinds _); simpl in Hin;
        repeat destruct Hin as [<- | Hin]; try contradiction; discriminate Hh.
    + exists init, cParams,
        ((evs ++ (if unwinds (fst (main native memory flags Quote []))
                  then [EvDisconnect (snd (fmConnect native init cParams))]
                  else []))
         ++ (if unwinds (fst (main native memory flags Quote []))
             then [EvLibShutdown] else [])).
      split; [reflexivity |].
      cbn [app] in Hin. destruct Hin as [<- | Hin]; [discriminate Hh |].
      split; [exact Hin |]. split; [| exact Hr].
      apply in_app_or in Hin. destruct Hin as [Hin | Hin];
        [apply in_app_or in Hin; destruct Hin as [Hin | Hin] |].
      * apply (operation_on_handle _ _ _ _ HP Hin Hh).
      * destruct (unwinds _); [| destruct Hin].
        destruct Hin as [<- | []]. injection Hh as <-. reflexivity.
      * destruct (unwinds _); [| destruct Hin].
        destruct Hin as [<- | []]. discriminate Hh.
Qed.

(** X15.  A run of [main] that ends in [os.Exit] or in a fault has called neither
    the disconnect nor the library shutdown. *)
Theorem main_exit_skips_cleanup :
  unwinds (fst (main native memory flags Quote [])) = false ->
  ~ In EvLibShutdown (snd (main native memory flags Quote []))
  /\ forall h, ~ In (EvDisconnect h) (snd (main native memory flags Quote [])).
Proof.
  intros Hexit.
  destruct (main_shape native memory flags Quote)
    as [_ _ | _ Ho | init evs _ _ Hinit Hrun].
  - split; [| intros h]; intros [H | []]; discriminate H.
  - split; [| intros h]; intros [].
  - rewrite Hexit in *. rewrite List.app_nil_r.
    assert (Hevs : ~ In EvLibShutdown evs /\ forall h, ~ In (EvDisconnect h) evs).
    { destruct Hrun as [_ | cParams text _ _ | cParams evs _ HP].
      - split; [| intros h]; intros [].
      - split; [| intros h]; intros [H | [H | []]]; discriminate H.
      - rewrite Hexit, List.app_nil_r.
        destruct (operation_on_not_cleanup _ _ HP) as [Hs Hd].
        split; [| intros h]; intros [H | H]; try discriminate H;
          [exact (Hs H) | exact (Hd h H)]. }
    destruct Hevs as [Hs Hd].
    split; [| intros h]; intros Hin; apply in_app_or in Hin;
      destruct Hin as [Hin | Hin];
      try (destruct (init_no_handle init _ Hinit Hin) as [Hnone Hne];
           first [exact (Hne eq_refl) | discriminate Hnone]);
      [exact (Hs Hin) | exact (Hd h Hin)].
Qed.

(** X16.  A run of [main] that connects and then returns or panics is: the
    initialisation, one connect that the library answers with the success
    code and a handle, operations on that handle, the disconnect of that very
    handle and, last, the library shutdown.  Nothing before the last two
    events is a connect other than that one, a disconnect or a shutdown. *)
Theorem main_return_cleans_up :
  unwinds (fst (main native memory flags Quote [])) = true ->
  snd (main native memory flags Quote []) <> [] ->
  exists init cParams ops,
    snd (main native memory flags Quote [])
    = init ++ EvConnect cParams :: ops
      ++ [EvDisconnect (snd (fmConnect native init cParams)); EvLibShutdown]
    /\ FMReturn_of_C (fst (fmConnect native init cParams)) = FM_ST_SUCCESS
    /\ (init = [EvLibInit] \/ exists text, init = [EvLibInit; EvStderr text])
    /\ Forall (Events.operation_on (snd (fmConnect native init cParams))) ops
    /\ ~ In EvLibShutdown (init ++ EvConnect cParams :: ops)
    /\ (forall h, ~ In (EvDisconnect h) (init ++ EvConnect cParams :: ops))
    /\ (forall c, In (EvConnect c) (init ++ EvConnect cParams :: ops) ->
                  c = cParams).
Proof.
  intros Hret Hne.
  destruct (main_shape native memory flags Quote)
    as [_ Ho | _ _ | init evs _ _ Hinit Hrun].
  - rewrite Ho in Hret. discriminate Hret.
  - contradiction.
  - rewrite Hret in *.
    destruct Hrun as [Ho | cParams text _ Ho | cParams evs Hr HP].
    + rewrite Ho in Hret. discriminate Hret.
    + rewrite Ho in Hret. discriminate Hret.
    + exists init, cParams, evs.
      split.
      { rewrite Hret. cbn [app]. rewrite <- app_assoc. reflexivity. }
      split; [exact Hr |]. split; [exact Hinit |]. split; [exact HP |].
      destruct (operation_on_not_cleanup _ _ HP) as [Hs Hd].
      assert (Hops : forall c, ~ In (EvConnect c) evs).
      { intros c Hin. rewrite Forall_forall in HP. exact (HP _ Hin). }
      assert (Hfirst : forall c, ~ In (EvConnect c) init).
      { intros c Hin.
        destruct Hinit as [-> | [text' ->]]; simpl in Hin;
          repeat destruct Hin as [Hin | Hin]; try discriminate Hin;
          contradiction. }
      split; [| split; [intros h | intros c]]; intros Hin;
        apply in_app_or in Hin; destruct Hin as [Hin | [Hin | Hin]].
      * destruct (init_no_handle init _ Hinit Hin) as [_ Hne'].
        exact (Hne' eq_refl).
      * discriminate Hin.
      * exact (Hs Hin).
      * destruct (init_no_handle init _ Hinit Hin) as [Hnone _].
        discriminate Hnone.
      * discriminate Hin.
      * exact (Hd h Hin).
      * destruct (Hfirst c Hin).
      * congruence.
      * destruct (Hops c Hin).
Qed.

(** X17.  [main] calls the native library exactly when it is given a command other
    than [info]; the first call is then the library initialisation. *)
Theorem main_offline :
  (args flags = [] \/ nth 0 (args flags) EmptyString = "info"%string ->
   forall ev, In ev (snd (main native memory flags Quote [])) ->
              Events.is_native ev = false)
  /\ (args flags <> [] -> nth 0 (args flags) EmptyString <> "info"%string ->
      exists rest, snd (main native memory flags Quote []) = EvLibInit :: rest).
Proof.
  destruct (main_shape native memory flags Quote)
    as [Hargs _ | Hinfo _ | init evs Hargs Hinfo Hinit Hrun].
  - split.
    + intros _ ev [<- | []]. reflexivity.
    + intros Hne. contradiction.
  - split.
    + intros _ ev [].
    + intros _ Hne. contradiction.
  - split.
    + intros [H | H]; contradiction.
    + intros _ _. destruct Hinit as [-> | [text ->]]; eexists; reflexivity.
Qed.

End Runs.


(** ** Exit status *)

Lemma bind_no_exit {A B : Type} (o : Go.Outcome A) (k : A -> Go.Outcome B) :
  Events.no_exit o -> (forall a, Events.no_exit (k a)) -> Events.no_exit (Go.bind o k).
Proof.
  intros Ho Hk code. destruct o as [a | msg | c |]; simpl; try discriminate.
  - apply Hk.
  - exfalso. exact (Ho c eq_refl).
Qed.

Lemma for_each_no_exit {T : Type} (body : Z -> Go.Outcome T) (count : nat) :
  (forall i, Events.no_exit (body i)) -> forall i, Events.no_exit (Go.for_each body i count).
Proof.
  intros Hbody. induction count as [| count IH]; intros i; simpl.
  - intros code. discriminate.
  - apply bind_no_exit; [apply Hbody |]. intros x.
    apply bind_no_exit; [apply IH |]. intros xs code. discriminate.
Qed.

Lemma index_no_exit {T : Type} n (zero : T) a i : Events.no_exit (Go.index n zero a i).
Proof. intros code. unfold Go.index. destruct (_ && _); discriminate. Qed.

Lemma GoString_no_exit mem : Events.no_exit (Go.GoString mem).
Proof.
  induction mem as [| c mem IH]; simpl; [intros code; discriminate |].
  destruct (Ascii.eqb c zero); [intros code; discriminate |].
  apply bind_no_exit; [exact IH |]. intros s code. discriminate.
Qed.

Lemma convert_list_no_exit memory partitionList :
  Events.no_exit (fmsdk.convert_list memory partitionList).
Proof.
  unfold fmsdk.convert_list, Go.for_range. apply for_each_no_exit. intros i.
  unfold fmsdk.convert_partition.
  apply bind_no_exit; [apply index_no_exit |]. intros partition.
  apply bind_no_exit; [| intros gpus code; discriminate].
  unfold Go.for_range. apply for_each_no_exit. intros j.
  unfold fmsdk.convert_gpu.
  apply bind_no_exit; [apply index_no_exit |]. intros gpu.
  apply bind_no_exit; [apply GoString_no_exit |]. intros u.
  apply bind_no_exit; [apply GoString_no_exit |]. intros b code. discriminate.
Qed.

Section ExitsWith.

Import fmsdk fmctl.

Variable code : Z.

Lemma exits_ret {A : Type} (a : A) : Events.exits_with code (ret a).
Proof. intros tr c H. discriminate H. Qed.

Lemma exits_call {A : Type} (answer : list Event -> A) ev :
  Events.exits_with code (call answer ev).
Proof. intros tr c H. discriminate H. Qed.

Lemma exits_stderr text : Events.exits_with code (stderr text).
Proof. intros tr c H. discriminate H. Qed.

Lemma exits_usage : Events.exits_with code usage.
Proof. intros tr c H. discriminate H. Qed.

Lemma exits_os_Exit {A : Type} : Events.exits_with code (@os_Exit A code).
Proof. intros tr c H. injection H as <-. reflexivity. Qed.

Lemma exits_lift {A : Type} (o : Go.Outcome A) :
  Events.no_exit o -> Events.exits_with code (lift o).
Proof. intros Ho tr c H. exfalso. exact (Ho c H). Qed.

Lemma exits_bind {A B : Type} (m : M A) (k : A -> M B) :
  Events.exits_with code m -> (forall a, Events.exits_with code (k a)) ->
  Events.exits_with code (bind m k).
Proof.
  intros Hm Hk tr c. unfold bind. specialize (Hm tr).
  destruct (m tr) as [[a | msg | c' |] tr']; simpl in *; intros H;
    try discriminate H.
  - exact (Hk a tr' c H).
  - injection H as <-. apply Hm. reflexivity.
Qed.

Lemma exits_defer {A B : Type} (deferred : M B) (body : M A) :
  Events.exits_with code deferred -> Events.exits_with code body ->
  Events.exits_with code (defer_ deferred body).
Proof.
  intros Hd Hb tr c. unfold defer_. specialize (Hb tr).
  destruct (body tr) as [[a | msg | c' |] tr']; simpl in *.
  - specialize (Hd tr'). destruct (deferred tr') as [[b | msg | c' |] tr''];
      simpl in *; intros H; try discriminate H.
    injection H as <-. apply Hd. reflexivity.
  - specialize (Hd tr'). destruct (deferred tr') as [[b | msg' | c' |] tr''];
      simpl in *; intros H; try discriminate H.
    injection H as <-. apply Hd. reflexivity.
  - intros H. injection H as <-. apply Hb. reflexivity.
  - intros H. discriminate H.
Qed.

End ExitsWith.

Ltac exits_step :=
  first
    [ apply exits_ret
    | apply exits_call
    | apply exits_stderr
    | apply exits_usage
    | apply exits_os_Exit
    | apply exits_lift; apply convert_list_no_exit
    | apply exits_defer
    | apply exits_bind; [| intros ?]
    | match goal with
      | |- Events.exits_with _ (if ?c then _ else _) => destruct c
      | |- Events.exits_with _ (match ?x with _ => _ end) => destruct x
      end ].

(** Every [os.Exit] that [main] reaches after the parse of the flags has
    the status 1. *)
Lemma main_exits_with_1
  (native : fmsdk.Native) (memory : fmsdk.Memory) (flags : fmctl.Flags)
  (Quote : string -> string) :
  Events.exits_with 1 (fmctl.main native memory flags Quote).
Proof.
  unfold fmctl.main, fmctl.cmdInfo, fmctl.connected, fmctl.session, fmctl.execute,
    fmctl.with_partition_id, fmctl.connectToFM, fmctl.cmdList, fmctl.cmdStatus,
    fmctl.cmdActivate, fmctl.cmdDeactivate, fmsdk.FMLibInit, fmsdk.FMLibShutdown,
    fmsdk.FMConnect, fmsdk.FMDisconnect, fmsdk.FMGetSupportedFabricPartitions,
    fmsdk.FMActivateFabricPartition, fmsdk.FMDeactivateFabricPartition.
  repeat exits_step.
  all: apply exits_lift; unfold fmsdk.connect_request, Go.read_array;
    destruct (_ <=? _)%nat; intros c; discriminate.
Qed.

(** X18.  Whenever the process leaves through [os.Exit], the status is 0
    when the flags asked for help, 2 when [flag.Parse()] met a bad flag, and
    1 in every other case, which are the exits of [main]'s own code; the two
    exits of the parse come before any call of the native library. *)
Theorem main_exit_status
  (native : fmsdk.Native) (memory : fmsdk.Memory) (Quote : string -> string)
  (parse : Process.FlagParse) (tr : list fmsdk.Event) (status : Z) :
  fst (Process.run native memory Quote parse tr) = Go.Exit status ->
  match parse with
  | Process.Parsed _ => status = 1
  | Process.Help =>
      status = 0
      /\ snd (Process.run native memory Quote parse tr) = tr ++ [fmsdk.EvUsage]
  | Process.BadFlag text =>
      status = 2
      /\ snd (Process.run native memory Quote parse tr)
         = tr ++ [fmsdk.EvStderr (text ++ fmctl.nl); fmsdk.EvUsage]
  end.
Proof.
  destruct parse as [flags | | text]; intros Hexit.
  - exact (main_exits_with_1 native memory flags Quote tr status Hexit).
  - simpl in Hexit. split; [congruence | reflexivity].
  - simpl in Hexit. split; [congruence |].
    simpl. rewrite <- app_assoc. reflexivity.
Qed.


(** ** Commands *)

Section Commands.

Import fmsdk fmctl.

Variable native : Native.
Variable memory : Memory.

Lemma FMGetSupportedFabricPartitions_trace handle tr :
  snd (FMGetSupportedFabricPartitions native memory handle tr)
  = tr ++ [EvGetSupportedFabricPartitions handle C.fmFabricPartitionList_version].
Proof.
  unfold FMGetSupportedFabricPartitions, bind, call, lift, ret.
  destruct (fmGetSupportedFabricPartitions native tr handle list_request)
    as [r partitionList].
  destruct (negb _); [reflexivity |].
  destruct (convert_list memory partitionList); reflexivity.
Qed.

(** X12.  When the partition query returns a code other than success, [cmdList]
    and [cmdStatus] report that code's description and leave with status 1;
    the structure that came back is not decoded, whatever it holds. *)
Theorem partition_query_failure handle partitionID tr r partitionList :
  fmGetSupportedFabricPartitions native tr handle list_request
  = (r, partitionList) ->
  FMReturn_of_C r <> FM_ST_SUCCESS ->
  cmdList native memory handle tr
  = (Go.Exit 1,
     tr ++ [EvGetSupportedFabricPartitions handle C.fmFabricPartitionList_version;
            EvStderr ("Error: Failed to get fabric partitions: "
                      ++ String_ (FMReturn_of_C r) ++ nl)])
  /\ cmdStatus native memory handle partitionID tr
     = (Go.Exit 1,
        tr ++ [EvGetSupportedFabricPartitions handle
                 C.fmFabricPartitionList_version;
               EvStderr ("Error: Failed to get fabric partitions: "
                         ++ String_ (FMReturn_of_C r) ++ nl)]).
Proof.
  intros Hcall Hr.
  pose proof (FMGetSupportedFabricPartitions_failure memory native handle tr r
                partitionList Hcall Hr) as E.
  apply Z.eqb_neq in Hr.
  unfold cmdList, cmdStatus, bind. rewrite E. rewrite Hr.
  unfold stderr, os_Exit, Error. simpl. rewrite <- app_assoc. split; reflexivity.
Qed.

Lemma find_partition_None partitions partitionID :
  (forall p, In p partitions -> PartitionID p <> partitionID) ->
  find_partition partitions partitionID = None.
Proof.
  intros H. unfold find_partition.
  destruct (find _ partitions) as [p |] eqn:E; [| reflexivity].
  apply find_some in E. destruct E as [Hin Heq]. apply Z.eqb_eq in Heq.
  exfalso. exact (H p Hin Heq).
Qed.

Lemma find_partition_Some partitions partitionID p :
  In p partitions -> PartitionID p = partitionID ->
  exists q, find_partition partitions partitionID = Some q.
Proof.
  intros Hin Heq. unfold find_partition.
  destruct (find _ partitions) as [q |] eqn:E; [eexists; reflexivity |].
  exfalso. apply (find_none _ _ E) in Hin. apply Z.eqb_neq in Hin. contradiction.
Qed.

(** X13.  [cmdStatus] with a successful query: it returns when one of the decoded
    partitions has the identifier asked for; when none has, it reports
    "Partition ... not found" and leaves with status 1.  Either way the
    query is its only native call. *)
Theorem cmdStatus_lookup handle partitionID tr result :
  fst (FMGetSupportedFabricPartitions native memory handle tr)
  = Go.Ok (result, FM_ST_SUCCESS) ->
  ((exists p, In p result /\ PartitionID p = partitionID) ->
   cmdStatus native memory handle partitionID tr
   = (Go.Ok tt,
      tr ++ [EvGetSupportedFabricPartitions handle
               C.fmFabricPartitionList_version]))
  /\ ((forall p, In p result -> PartitionID p <> partitionID) ->
      cmdStatus native memory handle partitionID tr
      = (Go.Exit 1,
         tr ++ [EvGetSupportedFabricPartitions handle
                  C.fmFabricPartitionList_version;
                EvStderr ("Error: Partition " ++ Go.itoa partitionID
                          ++ " not found" ++ nl)])).
Proof.
  intros H.
  pose proof (FMGetSupportedFabricPartitions_trace handle tr) as Htr.
  destruct (FMGetSupportedFabricPartitions native memory handle tr)
    as [o tr'] eqn:E.
  simpl in H, Htr. subst o tr'.
  unfold cmdStatus, bind. rewrite E. simpl negb. cbn iota. split.
  - intros (p & Hin & Heq).
    destruct (find_partition_Some result partitionID p Hin Heq) as [q ->].
    reflexivity.
  - intros Hnone. rewrite (find_partition_None _ _ Hnone).
    unfold stderr, os_Exit. simpl. rewrite <- app_assoc. reflexivity.
Qed.

Variable flags : Flags.
Variable Quote : string -> string.

(** X11.  The [activate] and [deactivate] commands with a partition-id argument
    that denotes a number below [2^32]: one native call, on the session's
    handle and with that number.  When it succeeds the session returns and
    disconnects; when it fails the description of the code is reported and
    the process leaves with status 1, without a disconnect. *)
Theorem session_activate_deactivate handle tr :
  (2 <= List.length (args flags))%nat ->
  nth 1 (args flags) EmptyString <> EmptyString ->
  Forall Events.is_digit (list_ascii_of_string (nth 1 (args flags) EmptyString)) ->
  Events.decimal_value (nth 1 (args flags) EmptyString) < 2 ^ 32 ->
  session native memory flags Quote "activate" handle tr
  = (let id := Events.decimal_value (nth 1 (args flags) EmptyString) in
     let r := FMReturn_of_C (fmActivateFabricPartition native tr handle id) in
     if r =? FM_ST_SUCCESS
     then (Go.Ok tt,
           tr ++ [EvActivateFabricPartition handle id; EvDisconnect handle])
     else (Go.Exit 1,
           tr ++ [EvActivateFabricPartition handle id;
                  EvStderr ("Error: Failed to activate partition "
                            ++ Go.itoa id ++ ": " ++ String_ r ++ nl)]))
  /\ session native memory flags Quote "deactivate" handle tr
     = (let id := Events.decimal_value (nth 1 (args flags) EmptyString) in
        let r := FMReturn_of_C (fmDeactivateFabricPartition native tr handle id) in
        if r =? FM_ST_SUCCESS
        then (Go.Ok tt,
              tr ++ [EvDeactivateFabricPartition handle id; EvDisconnect handle])
        else (Go.Exit 1,
              tr ++ [EvDeactivateFabricPartition handle id;
                     EvStderr ("Error: Failed to deactivate partition "
                               ++ Go.itoa id ++ ": " ++ String_ r ++ nl)])).
Proof.
  intros Hlen Hne Hdigits Hval.
  set (id := Events.decimal_value (nth 1 (args flags) EmptyString)).
  assert (Hid : CInt.uint id = id).
  { apply uint_small. split; [| exact Hval].
    apply decimal_value_nonneg. exact Hdigits. }
  unfold session, execute. simpl String.eqb. cbn iota.
  unfold defer_.
  rewrite (with_partition_id_valid flags Quote "activate"
             (cmdActivate native handle) tr Hlen Hne Hdigits Hval),
    (with_partition_id_valid flags Quote "deactivate"
       (cmdDeactivate native handle) tr Hlen Hne Hdigits Hval).
  fold id. unfold cmdActivate, cmdDeactivate, FMActivateFabricPartition,
    FMDeactivateFabricPartition, FMDisconnect, bind, call, ret, stderr, os_Exit,
    Error.
  rewrite Hid. cbv zeta.
  split.
  - destruct (FMReturn_of_C (fmActivateFabricPartition native tr handle id)
              =? FM_ST_SUCCESS); simpl; rewrite <- app_assoc; reflexivity.
  - destruct (FMReturn_of_C (fmDeactivateFabricPartition native tr handle id)
              =? FM_ST_SUCCESS); simpl; rewrite <- app_assoc; reflexivity.
Qed.

End Commands.


(** ** Instances *)

Lemma String_injective_witness :
  fmsdk.String_ (fmsdk.FMReturn_of_C 4294967289)
  = fmsdk.String_ fmsdk.FM_ST_IN_USE
  /\ fmsdk.FMReturn_of_C 4294967289 = fmsdk.FM_ST_IN_USE.
Proof.
  split; [reflexivity |].
  apply (String_injective (fmsdk.FMReturn_of_C 4294967289) fmsdk.FM_ST_IN_USE).
  reflexivity.
Defined.

Lemma convert_list_entries_witness :
  exists result p,
    fmsdk.convert_list Scenario.memory Scenario.two_partitions = Go.Ok result
    /\ nth_error result 0 = Some p
    /\ fmsdk.IsActive p = true.
Proof.
  destruct (fmsdk.convert_list Scenario.memory Scenario.two_partitions)
    as [result | | |] eqn:E; try (vm_compute in E; discriminate E).
  destruct (nth_error result 0) as [p |] eqn:Ep.
  - exists result, p. split; [reflexivity |]. split; [exact Ep |].
    destruct (convert_list_entries Scenario.memory Scenario.two_partitions
                result 0 p E Ep) as (_ & Hact & _).
    rewrite Hact. reflexivity.
  - vm_compute in E. injection E as <-. discriminate Ep.
Defined.

Lemma FMGetSupportedFabricPartitions_bounds_witness :
  exists result,
    fst (fmsdk.FMGetSupportedFabricPartitions
           (Scenario.daemon (0, 4096) (0, Scenario.two_partitions) 0)
           Scenario.memory 4096 [])
    = Go.Ok (result, fmsdk.FM_ST_SUCCESS)
    /\ Z.of_nat (List.length result) <= C.FM_MAX_FABRIC_PARTITIONS.
Proof.
  destruct (fst (fmsdk.FMGetSupportedFabricPartitions
                   (Scenario.daemon (0, 4096) (0, Scenario.two_partitions) 0)
                   Scenario.memory 4096 []))
    as [[result r] | | |] eqn:E; try (vm_compute in E; discriminate E).
  assert (Hr : r = fmsdk.FM_ST_SUCCESS).
  { vm_compute in E. injection E as _ <-. reflexivity. }
  subst r. exists result. split; [reflexivity |].
  apply (FMGetSupportedFabricPartitions_bounds Scenario.memory
           (Scenario.daemon (0, 4096) (0, Scenario.two_partitions) 0)
           4096 [] result fmsdk.FM_ST_SUCCESS E).
Defined.

Lemma connect_request_short_address_witness :
  exists cParams,
    fmsdk.connect_request Scenario.memory
      (Scenario.params Scenario.default_address 1) = Go.Ok cParams
    /\ List.length (C.addressInfo cParams) = 256%nat.
Proof.
  destruct (fmsdk.connect_request Scenario.memory
              (Scenario.params Scenario.default_address 1))
    as [cParams | | |] eqn:E; try (vm_compute in E; discriminate E).
  exists cParams. split; [reflexivity |].
  apply (connect_request_short_address Scenario.memory
           (Scenario.params Scenario.default_address 1) cParams);
    [apply Nat.ltb_lt; reflexivity | exact E].
Defined.

Lemma connect_request_truncates_witness :
  exists cParams,
    fmsdk.connect_request Scenario.tight_memory
      (Scenario.params Scenario.long_address 1) = Go.Ok cParams
    /\ C.addressInfo cParams
       = firstn 256 (list_ascii_of_string Scenario.long_address).
Proof.
  destruct (fmsdk.connect_request Scenario.tight_memory
              (Scenario.params Scenario.long_address 1))
    as [cParams | | |] eqn:E; try (vm_compute in E; discriminate E).
  exists cParams. split; [reflexivity |].
  apply (connect_request_truncates Scenario.tight_memory
           (Scenario.params Scenario.long_address 1) cParams);
    [apply Nat.leb_le; reflexivity | exact E].
Defined.

Lemma FMConnect_faults_witness :
  fmsdk.FMConnect (Scenario.daemon (0, 4096) (0, Scenario.empty_list 0) 0)
    Scenario.tight_memory (Scenario.params Scenario.default_address 1) []
  = (Go.Fault, []).
Proof.
  apply (FMConnect_faults Scenario.tight_memory
           (Scenario.daemon (0, 4096) (0, Scenario.empty_list 0) 0)
           (Scenario.params Scenario.default_address 1) []).
  apply Nat.ltb_lt. reflexivity.
Defined.

Lemma default_address_no_null :
  ~ In zero (list_ascii_of_string Scenario.default_address).
Proof.
  intros H. apply (in_map nat_of_ascii) in H.
  vm_compute in H. repeat destruct H as [H | H]; try discriminate H. exact H.
Qed.

Lemma connect_request_round_trip_witness :
  exists cParams,
    fmsdk.connect_request Scenario.memory
      (Scenario.params Scenario.default_address 1) = Go.Ok cParams
    /\ Go.GoString (C.addressInfo cParams ++ []) = Go.Ok Scenario.default_address.
Proof.
  destruct (fmsdk.connect_request Scenario.memory
              (Scenario.params Scenario.default_address 1))
    as [cParams | | |] eqn:E; try (vm_compute in E; discriminate E).
  exists cParams. split; [reflexivity |].
  apply (connect_request_round_trip Scenario.memory
           (Scenario.params Scenario.default_address 1) cParams []);
    [apply Nat.ltb_lt; reflexivity | exact default_address_no_null | exact E].
Defined.

Lemma connectToFM_request_witness :
  exists cParams,
    snd (fmctl.connectToFM
           (Scenario.daemon (0, 4096) (0, Scenario.empty_list 0) 0)
           Scenario.memory (Scenario.flags ["list"%string]) [])
    = [fmsdk.EvConnect cParams]
    /\ C.timeoutMs cParams = 5000.
Proof.
  destruct (connectToFM_request
              (Scenario.daemon (0, 4096) (0, Scenario.empty_list 0) 0)
              Scenario.memory (Scenario.flags ["list"%string]) [] 4096 0)
    as (cParams & Htr & _ & Htime & _).
  - vm_compute. reflexivity.
  - exists cParams. split; [exact Htr | exact Htime].
Defined.

Lemma with_partition_id_argument_witness :
  fmctl.with_partition_id (Scenario.flags ["activate"; "7"]%string)
    (fun s => s) "activate" (fun id => fmsdk.ret tt) []
  = (Go.Ok tt, []).
Proof.
  destruct (with_partition_id_argument (Scenario.flags ["activate"; "7"]%string)
              (fun s => s) "activate" (fun id => fmsdk.ret tt) [])
    as (_ & Hvalid & _).
  apply Hvalid.
  - apply Nat.leb_le. reflexivity.
  - discriminate.
  - repeat constructor.
  - reflexivity.
Defined.


Lemma partition_query_failure_witness :
  fmctl.cmdList (Scenario.daemon (0, 4096) (-5, Scenario.empty_list 65) 0)
    Scenario.memory 4096 []
  = (Go.Exit 1,
     [fmsdk.EvGetSupportedFabricPartitions 4096 C.fmFabricPartitionList_version;
      fmsdk.EvStderr ("Error: Failed to get fabric partitions: Timeout"
                      ++ fmctl.nl)]).
Proof.
  apply (partition_query_failure
           (Scenario.daemon (0, 4096) (-5, Scenario.empty_list 65) 0)
           Scenario.memory 4096 0 [] (-5) (Scenario.empty_list 65)).
  - reflexivity.
  - discriminate.
Defined.

Lemma cmdStatus_lookup_witness :
  fmctl.cmdStatus (Scenario.daemon (0, 4096) (0, Scenario.two_partitions) 0)
    Scenario.memory 4096 7 []
  = (Go.Exit 1,
     [fmsdk.EvGetSupportedFabricPartitions 4096 C.fmFabricPartitionList_version;
      fmsdk.EvStderr ("Error: Partition 7 not found" ++ fmctl.nl)]).
Proof.
  destruct (fst (fmsdk.FMGetSupportedFabricPartitions
                   (Scenario.daemon (0, 4096) (0, Scenario.two_partitions) 0)
                   Scenario.memory 4096 []))
    as [[result r] | | |] eqn:E; try (vm_compute in E; discriminate E).
  assert (Hr : r = fmsdk.FM_ST_SUCCESS).
  { vm_compute in E. injection E as _ <-. reflexivity. }
  subst r.
  apply (cmdStatus_lookup
           (Scenario.daemon (0, 4096) (0, Scenario.two_partitions) 0)
           Scenario.memory 4096 7 [] result E).
  vm_compute in E. injection E as <-.
  intros p [<- | [<- | []]]; discriminate.
Defined.

Lemma session_activate_deactivate_witness :
  fmctl.session (Scenario.daemon (0, 4096) (0, Scenario.empty_list 0) 0)
    Scenario.memory (Scenario.flags ["activate"; "7"]%string) (fun s => s)
    "activate" 4096 []
  = (Go.Ok tt,
     [fmsdk.EvActivateFabricPartition 4096 7; fmsdk.EvDisconnect 4096]).
Proof.
  apply (session_activate_deactivate
           (Scenario.daemon (0, 4096) (0, Scenario.empty_list 0) 0)
           Scenario.memory (Scenario.flags ["activate"; "7"]%string)
           (fun s => s) 4096 []).
  - apply Nat.leb_le. reflexivity.
  - discriminate.
  - repeat constructor.
  - reflexivity.
Defined.

Lemma main_handles_witness :
  exists init cParams rest,
    snd (fmctl.main (Scenario.daemon (0, 4096) (0, Scenario.two_partitions) 0)
           Scenario.memory (Scenario.flags ["list"%string]) (fun s => s) [])
    = init ++ fmsdk.EvConnect cParams :: rest
    /\ In (fmsdk.EvDisconnect 4096) rest.
Proof.
  destruct (main_handles
              (Scenario.daemon (0, 4096) (0, Scenario.two_partitions) 0)
              Scenario.memory (Scenario.flags ["list"%string]) (fun s => s)
              (fmsdk.EvDisconnect 4096) 4096)
    as (init & cParams & rest & Htr & Hin & _).
  - vm_compute. tauto.
  - reflexivity.
  - exists init, cParams, rest. split; [exact Htr | exact Hin].
Defined.

Lemma main_exit_skips_cleanup_witness :
  fmctl.unwinds
    (fst (fmctl.main (Scenario.daemon (0, 4096) (-5, Scenario.empty_list 0) 0)
            Scenario.memory (Scenario.flags ["list"%string]) (fun s => s) []))
  = false
  /\ ~ In fmsdk.EvLibShutdown
         (snd (fmctl.main
                 (Scenario.daemon (0, 4096) (-5, Scenario.empty_list 0) 0)
                 Scenario.memory (Scenario.flags ["list"%string])
                 (fun s => s) [])).
Proof.
  split; [vm_compute; reflexivity |].
  apply (main_exit_skips_cleanup
           (Scenario.daemon (0, 4096) (-5, Scenario.empty_list 0) 0)
           Scenario.memory (Scenario.flags ["list"%string]) (fun s => s)).
  vm_compute. reflexivity.
Defined.

Lemma main_return_cleans_up_witness :
  exists init cParams ops,
    snd (fmctl.main (Scenario.daemon (0, 4096) (0, Scenario.two_partitions) 0)
           Scenario.memory (Scenario.flags ["list"%string]) (fun s => s) [])
    = init ++ fmsdk.EvConnect cParams :: ops
      ++ [fmsdk.EvDisconnect 4096; fmsdk.EvLibShutdown].
Proof.
  destruct (main_return_cleans_up
              (Scenario.daemon (0, 4096) (0, Scenario.two_partitions) 0)
              Scenario.memory (Scenario.flags ["list"%string]) (fun s => s))
    as (init & cParams & ops & Htr & _).
  - vm_compute. reflexivity.
  - vm_compute. discriminate.
  - exists init, cParams, ops. exact Htr.
Defined.

Lemma main_exit_status_witness :
  (fst (Process.run (Scenario.daemon (0, 4096) (0, Scenario.empty_list 0) (-7))
          Scenario.memory (fun s => s)
          (Process.Parsed (Scenario.flags ["activate"; "7"]%string)) [])
   = Go.Exit 1
   /\ 1 = 1)
  /\ (fst (Process.run (Scenario.daemon (0, 4096) (0, Scenario.empty_list 0) 0)
            Scenario.memory (fun s => s)
            (Process.BadFlag "flag provided but not defined: -x") [])
      = Go.Exit 2
      /\ 2 = 2).
Proof.
  split.
  - split; [vm_compute; reflexivity |].
    apply (main_exit_status
             (Scenario.daemon (0, 4096) (0, Scenario.empty_list 0) (-7))
             Scenario.memory (fun s => s)
             (Process.Parsed (Scenario.flags ["activate"; "7"]%string)) [] 1).
    vm_compute. reflexivity.
  - split; [vm_compute; reflexivity |].
    apply (main_exit_status
             (Scenario.daemon (0, 4096) (0, Scenario.empty_list 0) 0)
             Scenario.memory (fun s => s)
             (Process.BadFlag "flag provided but not defined: -x") [] 2).
    vm_compute. reflexivity.
Defined.

Lemma convert_gpu_terminated_witness :
  exists info,
    fmsdk.convert_gpu Scenario.memory
      (Scenario.partition 0 1 1
         [Scenario.gpu 1 (list_ascii_of_string "GPU-1") []]) 0
    = Go.Ok info
    /\ fmsdk.UUID info = "GPU-1"%string.
Proof.
  destruct (fmsdk.convert_gpu Scenario.memory
              (Scenario.partition 0 1 1
                 [Scenario.gpu 1 (list_ascii_of_string "GPU-1") []]) 0)
    as [info | | |] eqn:E; try (vm_compute in E; discriminate E).
  exists info. split; [reflexivity |].
  destruct (convert_gpu_terminated Scenario.memory
              (Scenario.partition 0 1 1
                 [Scenario.gpu 1 (list_ascii_of_string "GPU-1") []]) 0 info E)
    as (Hu & _).
  - vm_compute. tauto.
  - vm_compute. tauto.
  - rewrite Hu. reflexivity.
Defined.

